(** * fish.cpp: a servo driven along a sine wave

    A shallow embedding of the Arduino sketch [fish.cpp] (XIAO ESP32-S3, one
    Dynamixel servo) and the properties of its motion function and of its
    start-up and loop behaviour.

    Numbers.  The sketch mixes [unsigned long] (32 bits on the ESP32-S3),
    [float] (binary32), [double] (binary64) and [int].  Integers are [Z]
    with the wrap-around written out.  Floating-point values are the real
    numbers they denote, and every place where C++ rounds (a [double]
    operation, the conversion to [float], the library's [sin], the constant
    [M_PI]) goes through an operation of the class [FloatOps].  [binary_ops]
    is the arithmetic of the target: rounding to the nearest binary32 or
    binary64 number, ties to even.  The classes [FloatOpsSound],
    [FloatOpsAccurate] and [FloatOpsBinary] collect the facts about rounding
    that the proofs use; the theorems hold for every arithmetic that has
    them, and [binary_ops] has all three.

    Effects.  Calls to the serial ports, to the Dynamixel driver and to
    [delay] are events appended to a trace; [millis()] and [ping] read the
    environment ([world]). *)

From Stdlib Require Import Reals Lra Lia ZArith NArith List String.
Import ListNotations.

Local Open Scope Z_scope.

(** ** Compile-time constants (fish.cpp, lines 5-18) *)

Definition DXL_TX_PIN : Z := 43.
Definition DXL_RX_PIN : Z := 44.
Definition DXL_DIR_PIN : Z := 5.
Definition BAUDRATE : Z := 57600.
Definition MOTOR_ID : Z := 1.

Definition DXL_PROTOCOL_VERSION : R := 2%R.
Definition CENTER_POS : R := 2048%R.
Definition AMPLITUDE : R := 400%R.
Definition SPEED : R := (1 / 2)%R.

(** ** Arithmetic *)

(** [unsigned long] on the target: 32 bits, arithmetic modulo [2^32]. *)
Definition ULONG_BITS : Z := 32.
Definition ulong (z : Z) : Z := z mod 2 ^ ULONG_BITS.

(** The places where the C++ arithmetic rounds. *)
Class FloatOps : Type := {
  to_float : R -> R;     (* conversion to [float] *)
  to_double : R -> R;    (* result of a [double] operation *)
  c_sin : R -> R;        (* [sin] of <math.h> on [double] *)
  M_PI : R               (* the [double] constant of <math.h> *)
}.

(** *** Rounding to nearest

    A binary format with [p] bits of precision holds the reals [m * 2^e]
    with [|m| < 2^p].  The exponent range is left unbounded: no value of the
    sketch comes near the overflow threshold or the subnormal range of
    either format. *)

Definition bpow (e : Z) : R := powerRZ 2 e.

(** The binade of a positive real: [2^(mag2 x) <= x < 2^(mag2 x + 1)]. *)
Definition mag2 (x : R) : Z := Zfloor (ln x / ln 2).

(** The nearest integer, the even one of the two when [y] is half way. *)
Definition Znearest_even (y : R) : Z :=
  if Rlt_dec (y - IZR (Zfloor y)) (1 / 2) then Zfloor y
  else if Rlt_dec (1 / 2) (y - IZR (Zfloor y)) then Zfloor y + 1
  else if Z.even (Zfloor y) then Zfloor y else Zfloor y + 1.

(** A positive real rounded to [p] bits: scaled so that its binade becomes
    [[2^(p-1), 2^p)], rounded to an integer, scaled back. *)
Definition round_pos (p : Z) (x : R) : R :=
  (IZR (Znearest_even (x * bpow (p - 1 - mag2 x))) * bpow (mag2 x - (p - 1)))%R.

Definition round_to (p : Z) (x : R) : R :=
  if Rle_dec 0 x then round_pos p x else (- round_pos p (- x))%R.

Definition binary32 : R -> R := round_to 24.
Definition binary64 : R -> R := round_to 53.

(** The arithmetic of the target.  The library's sine is taken correctly
    rounded and [M_PI] is the [double] nearest to pi. *)
#[export] Instance binary_ops : FloatOps := {|
  to_float := binary32;
  to_double := binary64;
  c_sin := fun x => binary64 (sin x);
  M_PI := binary64 PI
|}.

(** What the proofs assume of a rounding: it is monotone, it keeps the
    integers that the format holds exactly, and the library's sine stays in
    [[-1, 1]] and maps 0 to 0. *)
Class FloatOpsSound (F : FloatOps) : Prop := {
  to_float_mono : forall x y : R, (x <= y)%R -> (to_float x <= to_float y)%R;
  to_double_mono : forall x y : R, (x <= y)%R -> (to_double x <= to_double y)%R;
  to_float_int : forall n : Z, Z.abs n <= 2 ^ 24 -> to_float (IZR n) = IZR n;
  to_double_int : forall n : Z, Z.abs n <= 2 ^ 53 -> to_double (IZR n) = IZR n;
  c_sin_range : forall x : R, (-1 <= c_sin x <= 1)%R;
  c_sin_0 : c_sin 0 = 0%R
}.

(** How far a rounding may move a value, on the range this sketch uses:
    half a unit in the last place for binary32 and binary64, one unit for
    the library's sine, and [M_PI] the [double] next to pi. *)
Class FloatOpsAccurate (F : FloatOps) : Prop := {
  to_float_error : forall x : R,
    (/ 1024 <= x <= 4096)%R -> (Rabs (to_float x - x) <= x / 2 ^ 24)%R;
  to_double_error : forall x : R,
    (/ 1024 <= x <= 4096)%R -> (Rabs (to_double x - x) <= x / 2 ^ 53)%R;
  c_sin_error : forall x : R,
    (0 <= x <= 8)%R -> (Rabs (c_sin x - sin x) <= / 2 ^ 52)%R;
  M_PI_error : (Rabs (M_PI - PI) <= / 2 ^ 51)%R
}.

(** What binary32 and binary64 are.  A [float] in the binade
    [[2^k, 2^(k+1))] lies on the grid of step [2^(k-23)], half a step from
    the value stored at most.  A [double] operation has a relative error of
    [2^-53] at most, or an absolute one of [2^-1075] in the subnormal range.
    The library's sine is within [2^-52] of the sine, and [M_PI] within
    [2^-51] of pi. *)
Class FloatOpsBinary (F : FloatOps) : Prop := {
  to_float_binary32 : forall (k : Z) (x : R),
    -126 <= k <= 126 -> (bpow k <= x < bpow (k + 1))%R ->
    exists n : Z,
      to_float x = (IZR n * bpow (k - 23))%R
      /\ (Rabs (to_float x - x) <= bpow (k - 24))%R;
  to_double_binary64 : forall x : R,
    (Rabs x <= 2 ^ 1000)%R ->
    (Rabs (to_double x - x) <= Rabs x / 2 ^ 53 + / 2 ^ 1075)%R;
  c_sin_binary64 : forall x : R,
    (Rabs x <= 2 ^ 25)%R -> (Rabs (c_sin x - sin x) <= / 2 ^ 52)%R;
  M_PI_binary64 : (Rabs (M_PI - PI) <= / 2 ^ 51)%R
}.

(** [(int)x] for a floating-point [x]: the fractional part is discarded
    (truncation toward zero).  Values outside the range of [int] are
    undefined behaviour in C++ and do not occur here. *)
Definition int_of_float (x : R) : Z :=
  if Rle_dec 0 x then Zfloor x else Zceil x.

Section Motion.

Context {F : FloatOps}.

(** Line 48: [float t = (millis() - startTime) / 1000.0;] with [now] the
    value [millis()] returned.  The subtraction is on [unsigned long], the
    division on [double], the result is stored in a [float]. *)
Definition elapsed_seconds (now startTime : Z) : R :=
  to_float (to_double (IZR (ulong (now - startTime)) / 1000)).

(** Line 51:
    [float position = CENTER_POS + AMPLITUDE * sin(2 * M_PI * SPEED * t);]
    The product is evaluated from the left in [double]. *)
Definition position (t : R) : R :=
  to_float
    (to_double
       (CENTER_POS
        + to_double
            (AMPLITUDE
             * c_sin (to_double (to_double (to_double (2 * M_PI) * SPEED) * t))))).

(** Lines 54 and 58: [(int)position]. *)
Definition goal_position (t : R) : Z := int_of_float (position t).

End Motion.

(** The motion function as the specification words it:
    [round(center + amplitude * sin(2 pi frequency_hz t))], with the
    rounding of C's [round] (nearest integer, halves away from zero). *)
Definition round_nearest (x : R) : Z :=
  if Rle_dec 0 x then Zfloor (x + 1 / 2) else Zceil (x - 1 / 2).

Definition goal_position_spec (center amplitude frequency_hz t : R) : Z :=
  round_nearest (center + amplitude * sin (2 * PI * frequency_hz * t)).

(** [n] is an integer nearest to [x], whatever the rule for halves. *)
Definition nearest_integer (x : R) (n : Z) : Prop :=
  (Rabs (x - IZR n) <= 1 / 2)%R.

(** ** Effects *)

Inductive SerialConfig : Type := SERIAL_8N1.
Inductive OperatingMode : Type := OP_POSITION.
Inductive ControlTableItem : Type := PROFILE_VELOCITY | PROFILE_ACCELERATION.

(** One constructor per call that leaves the sketch. *)
Inductive event : Type :=
| Serial_begin (baud : Z)
| DXL_SERIAL_begin (baud : Z) (config : SerialConfig) (rx tx : Z)
| dxl_begin (baud : Z)
| dxl_setPortProtocolVersion (version : R)
| dxl_ping (id : Z)
| dxl_torqueOff (id : Z)
| dxl_setOperatingMode (id : Z) (mode : OperatingMode)
| dxl_torqueOn (id : Z)
| dxl_writeControlTableItem (item : ControlTableItem) (id : Z) (value : Z)
| dxl_setGoalPosition (id : Z) (value : Z)
| Serial_print (text : string)
| Serial_println (text : string)
| Serial_println_int (value : Z)
| delay (ms : Z).

(** What the sketch reads from outside: whether the motor with a given
    identifier answers a ping, and the hardware millisecond counter (never
    wrapped) at the [n]-th call of [millis()]. *)
Record world : Type := {
  ping : Z -> bool;
  clock : N -> Z
}.

(** The sketch's own memory: the function-local [static startTime] of
    [loop] ([None] until its initialiser has run) and the number of calls of
    [millis()] made so far. *)
Record state : Type := {
  startTime : option Z;
  reads : N
}.

Definition boot_state : state := {| startTime := None; reads := 0%N |}.

(** A computation reads and updates the state and emits events. *)
Definition M (A : Type) : Type := state -> A * state * list event.

Definition ret {A : Type} (a : A) : M A := fun s => (a, s, []).

Definition bind {A B : Type} (m : M A) (k : A -> M B) : M B :=
  fun s =>
    let '(a, s1, es1) := m s in
    let '(b, s2, es2) := k a s1 in
    (b, s2, es1 ++ es2).

Declare Scope prog_scope.
Delimit Scope prog_scope with prog.
Notation "x <- m ;; k" := (bind m (fun x => k))
  (at level 61, m at next level, right associativity) : prog_scope.
Notation "m ;; k" := (bind m (fun _ => k))
  (at level 61, right associativity) : prog_scope.

Definition emit (e : event) : M unit := fun s => (tt, s, [e]).

Definition events_of {A : Type} (r : A * state * list event) : list event := snd r.
Definition state_of {A : Type} (r : A * state * list event) : state := snd (fst r).
Definition value_of {A : Type} (r : A * state * list event) : A := fst (fst r).

(** How a call of [setup] ends: it returns, or it stays in [while (true);]. *)
Inductive flow : Type := Returns | Spins.

Section Sketch.

Context {F : FloatOps}.
Variable w : world.

(** [millis()]: the counter as an [unsigned long]. *)
Definition millis : M Z :=
  fun s =>
    (ulong (clock w (reads s)),
     {| startTime := startTime s; reads := N.succ (reads s) |},
     []).

(** [dxl.ping(id)]: the request goes out, the answer comes from the world. *)
Definition ping_motor (id : Z) : M bool :=
  fun s => (ping w id, s, [dxl_ping id]).

(** Line 45: [static unsigned long startTime = millis();] the initialiser
    runs the first time control passes the declaration, and never again. *)
Definition static_startTime : M Z :=
  fun s =>
    match startTime s with
    | Some t0 => (t0, s, [])
    | None =>
        let '(t0, s1, es) := millis s in
        (t0, {| startTime := Some t0; reads := reads s1 |}, es)
    end.

Local Open Scope prog_scope.
Local Open Scope string_scope.

(** Lines 22-42. *)
Definition setup : M flow :=
  emit (Serial_begin 115200) ;;
  emit (DXL_SERIAL_begin BAUDRATE SERIAL_8N1 DXL_RX_PIN DXL_TX_PIN) ;;
  emit (dxl_begin BAUDRATE) ;;
  emit (dxl_setPortProtocolVersion DXL_PROTOCOL_VERSION) ;;
  alive <- ping_motor MOTOR_ID ;;
  if negb alive then
    emit (Serial_println "Motor not responding. Check wiring and ID.") ;;
    ret Spins
  else
    emit (dxl_torqueOff MOTOR_ID) ;;
    emit (dxl_setOperatingMode MOTOR_ID OP_POSITION) ;;
    emit (dxl_torqueOn MOTOR_ID) ;;
    emit (dxl_writeControlTableItem PROFILE_VELOCITY MOTOR_ID 400) ;;
    emit (dxl_writeControlTableItem PROFILE_ACCELERATION MOTOR_ID 50) ;;
    emit (Serial_println "Sine wave motion initialized.") ;;
    ret Returns.

(** Lines 44-61. *)
Definition loop : M unit :=
  start <- static_startTime ;;
  now <- millis ;;
  let t := elapsed_seconds now start in
  let position := position t in
  emit (dxl_setGoalPosition MOTOR_ID (int_of_float position)) ;;
  emit (Serial_print "Goal: ") ;;
  emit (Serial_println_int (int_of_float position)) ;;
  emit (delay 20).

(** The Arduino core calls [setup] once and then [loop] for ever.  One
    [step] is one such call; a sketch that stays in [while (true);] makes
    no further call. *)
Inductive phase : Type := Boot | Halted | Looping.

Record system : Type := {
  at_phase : phase;
  memory : state;
  output : list event
}.

Definition power_on : system :=
  {| at_phase := Boot; memory := boot_state; output := [] |}.

Definition step (sys : system) : system :=
  match at_phase sys with
  | Boot =>
      let r := setup (memory sys) in
      {| at_phase := match value_of r with Returns => Looping | Spins => Halted end;
         memory := state_of r;
         output := output sys ++ events_of r |}
  | Halted => sys
  | Looping =>
      let r := loop (memory sys) in
      {| at_phase := Looping;
         memory := state_of r;
         output := output sys ++ events_of r |}
  end.

(** The system after [n] steps. *)
Definition exec (n : N) : system := N.iter n step power_on.

(** The elapsed time that the [k]-th call of [loop] computes (counting
    from 0): the first call reads the counter twice, every later call once. *)
Definition iteration_t (k : N) : R :=
  elapsed_seconds (ulong (clock w (N.succ k))) (ulong (clock w 0%N)).

(** The events of one call of [loop] that computes the elapsed time [t]. *)
Definition loop_events (t : R) : list event :=
  [ dxl_setGoalPosition MOTOR_ID (goal_position t);
    Serial_print "Goal: ";
    Serial_println_int (goal_position t);
    delay 20 ].

(** The events of the first [n] calls of [loop]. *)
Definition run_events (n : N) : list event :=
  N.peano_rect (fun _ => list event) []
    (fun k before => (before ++ loop_events (iteration_t k))%list) n.

(** The memory after [setup] and [n] calls of [loop]. *)
Definition memory_after (n : N) : state :=
  match n with
  | 0%N => boot_state
  | _ => {| startTime := Some (ulong (clock w 0%N)); reads := N.succ n |}
  end.

End Sketch.

(** ** Reading a trace *)

(** The goal positions written to the motor, in order. *)
Fixpoint written (l : list event) : list Z :=
  match l with
  | [] => []
  | dxl_setGoalPosition _ v :: l' => v :: written l'
  | _ :: l' => written l'
  end.

(** The integers printed on the debug port, in order. *)
Fixpoint printed (l : list event) : list Z :=
  match l with
  | [] => []
  | Serial_println_int v :: l' => v :: printed l'
  | _ :: l' => printed l'
  end.

Definition is_goal_write (e : event) : bool :=
  match e with dxl_setGoalPosition _ _ => true | _ => false end.

Definition is_torqueOn (e : event) : bool :=
  match e with dxl_torqueOn _ => true | _ => false end.

Definition is_setOperatingMode (e : event) : bool :=
  match e with dxl_setOperatingMode _ _ => true | _ => false end.

Definition is_write_of (item : ControlTableItem) (e : event) : bool :=
  match e, item with
  | dxl_writeControlTableItem PROFILE_VELOCITY _ _, PROFILE_VELOCITY => true
  | dxl_writeControlTableItem PROFILE_ACCELERATION _ _, PROFILE_ACCELERATION => true
  | _, _ => false
  end.

Definition is_ping (e : event) : bool :=
  match e with dxl_ping _ => true | _ => false end.

Definition is_torqueOff (e : event) : bool :=
  match e with dxl_torqueOff _ => true | _ => false end.

Definition is_control_write (e : event) : bool :=
  match e with dxl_writeControlTableItem _ _ _ => true | _ => false end.

Definition is_delay (e : event) : bool :=
  match e with delay _ => true | _ => false end.


Definition count (p : event -> bool) (l : list event) : nat :=
  List.length (List.filter p l).

(** [a] occurs in [l] and [b] occurs after it. *)
Definition precedes (a b : event) (l : list event) : Prop :=
  exists l1 l2 l3, l = l1 ++ a :: l2 ++ b :: l3.

(** The calls of a [setup] that finds the motor, in order. *)
Definition setup_events : list event :=
  [ Serial_begin 115200;
    DXL_SERIAL_begin BAUDRATE SERIAL_8N1 DXL_RX_PIN DXL_TX_PIN;
    dxl_begin BAUDRATE;
    dxl_setPortProtocolVersion DXL_PROTOCOL_VERSION;
    dxl_ping MOTOR_ID;
    dxl_torqueOff MOTOR_ID;
    dxl_setOperatingMode MOTOR_ID OP_POSITION;
    dxl_torqueOn MOTOR_ID;
    dxl_writeControlTableItem PROFILE_VELOCITY MOTOR_ID 400;
    dxl_writeControlTableItem PROFILE_ACCELERATION MOTOR_ID 50;
    Serial_println "Sine wave motion initialized."%string ].

(** The calls of a [setup] whose ping gets no answer. *)
Definition setup_failed_events : list event :=
  [ Serial_begin 115200;
    DXL_SERIAL_begin BAUDRATE SERIAL_8N1 DXL_RX_PIN DXL_TX_PIN;
    dxl_begin BAUDRATE;
    dxl_setPortProtocolVersion DXL_PROTOCOL_VERSION;
    dxl_ping MOTOR_ID;
    Serial_println "Motor not responding. Check wiring and ID."%string ].

(** ** Worlds used as concrete inputs *)

(** The motor answers and [millis()] is read every 20 ms from 0 on. *)
Definition steady_world : world :=
  {| ping := fun _ => true; clock := fun n => 20 * Z.of_N n |}.

(** The motor answers; the counter stands at 100 ms at the first read and
    has moved on by one millisecond at each later read. *)
Definition ticking_world : world :=
  {| ping := fun _ => true; clock := fun n => 100 + Z.of_N n |}.

(** The motor answers; the first call of [loop] reads the counter twice
    within the same millisecond, later calls follow every 20 ms. *)
Definition prompt_world : world :=
  {| ping := fun _ => true; clock := fun n => 100 + 20 * Z.of_N (N.pred n) |}.

(** No motor answers. *)
Definition silent_world : world :=
  {| ping := fun _ => false; clock := fun n => 20 * Z.of_N n |}.

(** * Properties *)

(** ** The cast and the rounding operations *)

Lemma int_of_float_nonneg (x : R) : (0 <= x)%R -> int_of_float x = Zfloor x.
Proof.
  intros Hx. unfold int_of_float.
  destruct (Rle_dec 0 x) as [_ | Hn]; [reflexivity | contradiction].
Qed.

Lemma int_of_float_IZR (n : Z) : int_of_float (IZR n) = n.
Proof.
  unfold int_of_float. destruct (Rle_dec 0 (IZR n)).
  - apply ZfloorZ.
  - unfold Zceil. replace (- IZR n)%R with (IZR (- n)) by (rewrite opp_IZR; reflexivity).
    rewrite ZfloorZ. lia.
Qed.

(** Between two integers the cast stays between them. *)
Lemma int_of_float_between (lo hi : Z) (x : R) :
  0 <= lo -> (IZR lo <= x <= IZR hi)%R -> lo <= int_of_float x <= hi.
Proof.
  intros Hlo [Hl Hh].
  assert (0 <= x)%R by (apply Rle_trans with (IZR lo); [apply IZR_le; lia | exact Hl]).
  rewrite int_of_float_nonneg by assumption.
  split.
  - apply Zfloor_lub. exact Hl.
  - rewrite <- (ZfloorZ hi). apply Zfloor_le. exact Hh.
Qed.

Lemma Rabs_bound (x y : R) : (Rabs x <= y)%R -> (- y <= x <= y)%R.
Proof. unfold Rabs. destruct (Rcase_abs x); lra. Qed.

(** ** Rounding to nearest

    Powers of two. *)
Lemma bpow_pos (e : Z) : (0 < bpow e)%R.
Proof. apply powerRZ_lt. lra. Qed.

Lemma bpow_add (e1 e2 : Z) : bpow (e1 + e2) = (bpow e1 * bpow e2)%R.
Proof. apply powerRZ_add. lra. Qed.

Lemma bpow_IZR (e : Z) : 0 <= e -> bpow e = IZR (2 ^ e).
Proof.
  intros He. unfold bpow. rewrite <- (Z2Nat.id e He) at 1 2.
  rewrite <- pow_powerRZ, pow_IZR. reflexivity.
Qed.

Lemma bpow_0 : bpow 0 = 1%R.
Proof. reflexivity. Qed.

Lemma bpow_1 : bpow 1 = 2%R.
Proof. unfold bpow. simpl. lra. Qed.

Lemma bpow_ge_2 (d : Z) : 1 <= d -> (2 <= bpow d)%R.
Proof.
  intros Hd. rewrite bpow_IZR by lia. apply IZR_le.
  change 2 with (2 ^ 1) at 1. apply Z.pow_le_mono_r; lia.
Qed.

Lemma bpow_lt (e1 e2 : Z) : e1 < e2 -> (bpow e1 < bpow e2)%R.
Proof.
  intros H. replace e2 with (e1 + (e2 - e1)) by ring. rewrite bpow_add.
  pose proof (bpow_pos e1). pose proof (bpow_ge_2 (e2 - e1) ltac:(lia)). nra.
Qed.

Lemma bpow_le (e1 e2 : Z) : e1 <= e2 -> (bpow e1 <= bpow e2)%R.
Proof.
  intros H. destruct (Z.eq_dec e1 e2) as [-> | Hne]; [lra |].
  apply Rlt_le, bpow_lt. lia.
Qed.

Lemma bpow_lt_inv (e1 e2 : Z) : (bpow e1 < bpow e2)%R -> e1 < e2.
Proof.
  intros H. destruct (Z_lt_le_dec e1 e2) as [Hlt | Hge]; [exact Hlt |].
  pose proof (bpow_le e2 e1 Hge). lra.
Qed.

Lemma bpow_cancel (e : Z) : (bpow e * bpow (- e) = 1)%R.
Proof. rewrite <- bpow_add. replace (e + - e) with 0 by ring. reflexivity. Qed.

(** The binade of a positive real. *)
Lemma mag2_spec (x : R) : (0 < x)%R -> (bpow (mag2 x) <= x < bpow (mag2 x + 1))%R.
Proof.
  intros Hx. unfold mag2, bpow.
  pose proof ln_lt_2 as Hln2.
  pose proof (Zfloor_bound (ln x / ln 2)) as [Hlo Hhi].
  set (m := Zfloor (ln x / ln 2)) in *.
  rewrite !powerRZ_Rpower by lra. unfold Rpower.
  assert (IZR m * ln 2 <= ln x)%R as H1.
  { apply Rmult_le_reg_r with (/ ln 2)%R; [apply Rinv_0_lt_compat; lra |].
    rewrite Rmult_assoc, Rinv_r by lra. unfold Rdiv in Hlo. lra. }
  assert (ln x < IZR (m + 1) * ln 2)%R as H2.
  { rewrite plus_IZR.
    apply Rmult_lt_reg_r with (/ ln 2)%R; [apply Rinv_0_lt_compat; lra |].
    rewrite Rmult_assoc, Rinv_r by lra. unfold Rdiv in Hhi. lra. }
  split.
  - rewrite <- (exp_ln x Hx) at 1.
    destruct H1 as [H1 | H1]; [apply Rlt_le, exp_increasing; exact H1 | rewrite H1; lra].
  - rewrite <- (exp_ln x Hx) at 1. apply exp_increasing. exact H2.
Qed.

Lemma mag2_unique (x : R) (k : Z) :
  (bpow k <= x < bpow (k + 1))%R -> mag2 x = k.
Proof.
  intros [Hlo Hhi]. assert (0 < x)%R as Hx by (pose proof (bpow_pos k); lra).
  destruct (mag2_spec x Hx) as [Mlo Mhi].
  assert (mag2 x < k + 1) by (apply bpow_lt_inv; lra).
  assert (k < mag2 x + 1) by (apply bpow_lt_inv; lra).
  lia.
Qed.

(** The nearest integer, ties to even. *)
Lemma Znearest_even_cases (y : R) :
  Znearest_even y = Zfloor y \/ Znearest_even y = Zfloor y + 1.
Proof.
  unfold Znearest_even.
  destruct (Rlt_dec _ _); [left; reflexivity |].
  destruct (Rlt_dec _ _); [right; reflexivity |].
  destruct (Z.even _); [left | right]; reflexivity.
Qed.

Lemma Znearest_even_error (y : R) : (Rabs (IZR (Znearest_even y) - y) <= 1 / 2)%R.
Proof.
  pose proof (Zfloor_bound y) as [Hlo Hhi].
  unfold Znearest_even.
  destruct (Rlt_dec _ _) as [H1 | H1].
  - apply Rabs_le. lra.
  - destruct (Rlt_dec _ _) as [H2 | H2].
    + rewrite plus_IZR. apply Rabs_le. lra.
    + destruct (Z.even _); [| rewrite plus_IZR]; apply Rabs_le; lra.
Qed.

Lemma Rabs_le_inv_half (y : R) :
  (- (1 / 2) <= IZR (Znearest_even y) - y <= 1 / 2)%R.
Proof.
  pose proof (Znearest_even_error y) as H. revert H.
  unfold Rabs. destruct (Rcase_abs _); lra.
Qed.

Lemma Znearest_even_IZR (n : Z) : Znearest_even (IZR n) = n.
Proof.
  unfold Znearest_even. rewrite ZfloorZ.
  destruct (Rlt_dec _ _) as [H1 | H1]; [reflexivity | exfalso; apply H1; lra].
Qed.

Lemma Znearest_even_mono (y1 y2 : R) :
  (y1 <= y2)%R -> Znearest_even y1 <= Znearest_even y2.
Proof.
  intros H.
  pose proof (Zfloor_le y1 y2 H) as Hf.
  destruct (Z.eq_dec (Zfloor y1) (Zfloor y2)) as [E | NE].
  - unfold Znearest_even. rewrite E.
    repeat match goal with
           | |- context [Rlt_dec ?a ?b] => destruct (Rlt_dec a b)
           end;
      destruct (Z.even (Zfloor y2)); first [lia | exfalso; lra].
  - destruct (Znearest_even_cases y1) as [-> | ->];
      destruct (Znearest_even_cases y2) as [-> | ->]; lia.
Qed.

Lemma Znearest_even_0 : Znearest_even 0 = 0.
Proof. exact (Znearest_even_IZR 0). Qed.

(** Rounding a positive real in its binade. *)
Section RoundPos.

Variable p : Z.
Hypothesis p_pos : 1 <= p.

Lemma round_pos_binade (k : Z) (x : R) :
  (bpow k <= x < bpow (k + 1))%R ->
  round_pos p x
  = (IZR (Znearest_even (x * bpow (p - 1 - k))) * bpow (k - (p - 1)))%R.
Proof. intros Hx. unfold round_pos. rewrite (mag2_unique x k Hx). reflexivity. Qed.

Lemma scale_cancel (k : Z) : (bpow (p - 1 - k) * bpow (k - (p - 1)) = 1)%R.
Proof. rewrite <- bpow_add. replace (p - 1 - k + (k - (p - 1))) with 0 by ring. reflexivity. Qed.

Lemma half_ulp (k : Z) : bpow (k - (p - 1)) = (2 * bpow (k - p))%R.
Proof.
  replace (k - (p - 1)) with (1 + (k - p)) by ring.
  rewrite bpow_add, bpow_1. reflexivity.
Qed.

Lemma round_pos_error (k : Z) (x : R) :
  (bpow k <= x < bpow (k + 1))%R ->
  (Rabs (round_pos p x - x) <= bpow (k - p))%R.
Proof.
  intros Hx. rewrite (round_pos_binade k x Hx).
  set (s := bpow (p - 1 - k)). set (u := bpow (k - (p - 1))).
  pose proof (scale_cancel k) as Hsu. fold s u in Hsu.
  pose proof (Rabs_le_inv_half (x * s)) as He.
  pose proof (bpow_pos (k - (p - 1))) as Hu. fold u in Hu.
  pose proof (half_ulp k) as Hh. fold u in Hh.
  replace (IZR (Znearest_even (x * s)) * u - x)%R
    with ((IZR (Znearest_even (x * s)) - x * s) * u)%R
    by (rewrite Rmult_minus_distr_r, Rmult_assoc, Hsu; ring).
  apply Rabs_le. nra.
Qed.

Lemma scaled_range (k : Z) (x : R) :
  (bpow k <= x < bpow (k + 1))%R ->
  (IZR (2 ^ (p - 1)) <= x * bpow (p - 1 - k) < IZR (2 ^ p))%R.
Proof.
  intros [Hlo Hhi].
  pose proof (bpow_pos (p - 1 - k)) as Hs.
  rewrite <- !bpow_IZR by lia.
  assert (bpow (p - 1) = bpow k * bpow (p - 1 - k))%R as E1
    by (rewrite <- bpow_add; f_equal; ring).
  assert (bpow p = bpow (k + 1) * bpow (p - 1 - k))%R as E2
    by (rewrite <- bpow_add; f_equal; ring).
  rewrite E1, E2. split; nra.
Qed.

Lemma round_pos_bounds (k : Z) (x : R) :
  (bpow k <= x < bpow (k + 1))%R ->
  (bpow k <= round_pos p x <= bpow (k + 1))%R.
Proof.
  intros Hx. rewrite (round_pos_binade k x Hx).
  destruct (scaled_range k x Hx) as [Hlo Hhi].
  pose proof (Znearest_even_mono _ _ Hlo) as H1.
  pose proof (Znearest_even_mono _ _ (Rlt_le _ _ Hhi)) as H2.
  rewrite Znearest_even_IZR in H1, H2.
  apply IZR_le in H1, H2. rewrite <- !bpow_IZR in H1, H2 by lia.
  pose proof (bpow_pos (k - (p - 1))) as Hu.
  replace (bpow k) with (bpow (p - 1) * bpow (k - (p - 1)))%R
    by (rewrite <- bpow_add; f_equal; ring).
  replace (bpow (k + 1)) with (bpow p * bpow (k - (p - 1)))%R
    by (rewrite <- bpow_add; f_equal; ring).
  split; apply Rmult_le_compat_r; lra.
Qed.

Lemma round_pos_mono (x y : R) :
  (0 < x)%R -> (x <= y)%R -> (round_pos p x <= round_pos p y)%R.
Proof.
  intros Hx Hxy.
  assert (0 < y)%R as Hy by lra.
  pose proof (mag2_spec x Hx) as Bx. pose proof (mag2_spec y Hy) as By.
  set (kx := mag2 x) in *. set (ky := mag2 y) in *.
  assert (kx <= ky) as Hk.
  { assert (kx < ky + 1) by (apply bpow_lt_inv; lra). lia. }
  destruct (Z.eq_dec kx ky) as [E | NE].
  - rewrite (round_pos_binade kx x Bx), (round_pos_binade kx y) by (rewrite E; exact By).
    apply Rmult_le_compat_r; [apply Rlt_le, bpow_pos |].
    apply IZR_le, Znearest_even_mono.
    apply Rmult_le_compat_r; [apply Rlt_le, bpow_pos | exact Hxy].
  - pose proof (round_pos_bounds kx x Bx) as [_ H1].
    pose proof (round_pos_bounds ky y By) as [H2 _].
    pose proof (bpow_le (kx + 1) ky ltac:(lia)). lra.
Qed.

(** A value that the format holds is not moved. *)
Lemma round_pos_fixed (k m e : Z) (x : R) :
  (bpow k <= x < bpow (k + 1))%R ->
  x = (IZR m * bpow e)%R -> k - (p - 1) <= e ->
  round_pos p x = x.
Proof.
  intros Hx Hm He. rewrite (round_pos_binade k x Hx).
  assert (x * bpow (p - 1 - k) = IZR (m * 2 ^ (e + (p - 1 - k))))%R as Hint.
  { rewrite Hm, mult_IZR, <- bpow_IZR by lia. rewrite bpow_add. ring. }
  rewrite Hint, Znearest_even_IZR, <- Hint.
  rewrite Rmult_assoc, scale_cancel. ring.
Qed.

End RoundPos.

(** Rounding with the sign. *)
Section RoundTo.

Variable p : Z.
Hypothesis p_pos : 1 <= p.

Lemma round_pos_0 : round_pos p 0 = 0%R.
Proof. unfold round_pos. rewrite Rmult_0_l, Znearest_even_0. ring. Qed.

Lemma round_to_0 : round_to p 0 = 0%R.
Proof.
  unfold round_to. destruct (Rle_dec 0 0) as [_ | H]; [apply round_pos_0 | lra].
Qed.

Lemma round_pos_nonneg (x : R) : (0 <= x)%R -> (0 <= round_pos p x)%R.
Proof.
  intros [Hx | <-]; [| rewrite round_pos_0; lra].
  pose proof (round_pos_bounds p p_pos _ x (mag2_spec x Hx)) as [H _].
  pose proof (bpow_pos (mag2 x)). lra.
Qed.

Lemma round_to_opp (x : R) : round_to p (- x) = (- round_to p x)%R.
Proof.
  unfold round_to.
  destruct (Rle_dec 0 x) as [H1 | H1]; destruct (Rle_dec 0 (- x)) as [H2 | H2].
  - assert (x = 0)%R as -> by lra. rewrite Ropp_0, round_pos_0. ring.
  - rewrite Ropp_involutive. reflexivity.
  - rewrite Ropp_involutive. reflexivity.
  - exfalso. lra.
Qed.

Lemma round_to_mono (x y : R) : (x <= y)%R -> (round_to p x <= round_to p y)%R.
Proof.
  intros Hxy. unfold round_to.
  destruct (Rle_dec 0 x) as [Hx | Hx]; destruct (Rle_dec 0 y) as [Hy | Hy].
  - destruct Hx as [Hx | <-].
    + apply round_pos_mono; assumption.
    + rewrite round_pos_0. apply round_pos_nonneg. exact Hy.
  - exfalso. lra.
  - assert (0 <= - x)%R as Hx' by lra.
    pose proof (round_pos_nonneg (- x) Hx').
    pose proof (round_pos_nonneg y Hy). lra.
  - apply Ropp_le_contravar. apply round_pos_mono; [assumption | lra | lra].
Qed.

(** The relative error is [2^-p] at most. *)
Lemma round_to_error (x : R) :
  (Rabs (round_to p x - x) <= Rabs x * bpow (- p))%R.
Proof.
  assert (forall y, (0 < y)%R -> (Rabs (round_pos p y - y) <= y * bpow (- p))%R) as Hpos.
  { intros y Hy. pose proof (mag2_spec y Hy) as By.
    pose proof (round_pos_error p (mag2 y) y By) as He.
    replace (mag2 y - p) with (mag2 y + - p) in He by ring.
    rewrite bpow_add in He.
    pose proof (bpow_pos (- p)). destruct By as [Blo _]. nra. }
  unfold round_to. destruct (Rle_dec 0 x) as [[Hx | <-] | Hx].
  - rewrite (Rabs_right x) by lra. apply Hpos. exact Hx.
  - rewrite round_pos_0, Rminus_diag, Rabs_R0. lra.
  - rewrite (Rabs_left x) by lra.
    replace (- round_pos p (- x) - x)%R with (- (round_pos p (- x) - - x))%R by ring.
    rewrite Rabs_Ropp. apply Hpos. lra.
Qed.

(** Integers of at most [p] bits are kept. *)
Lemma round_pos_IZR (n : Z) : 1 <= n <= 2 ^ p -> round_pos p (IZR n) = IZR n.
Proof.
  intros [Hlo Hhi].
  assert (0 < IZR n)%R as Hn by (apply IZR_lt; lia).
  pose proof (mag2_spec _ Hn) as Bn. set (k := mag2 (IZR n)) in *.
  assert (0 <= k) as Hk0.
  { assert (0 < k + 1); [| lia]. apply bpow_lt_inv. rewrite bpow_0.
    apply Rle_lt_trans with (IZR n); [apply IZR_le; lia | apply Bn]. }
  assert (k <= p) as Hkp.
  { assert (k < p + 1); [| lia]. apply bpow_lt_inv.
    apply Rle_lt_trans with (IZR n); [apply Bn |].
    rewrite (bpow_IZR (p + 1)) by lia. apply IZR_lt.
    rewrite Z.pow_add_r by lia. lia. }
  destruct (Z.eq_dec k p) as [E | NE].
  - assert (n = 2 ^ p) as ->.
    { destruct Bn as [Blo _]. rewrite E, bpow_IZR in Blo by lia.
      apply le_IZR in Blo. lia. }
    apply (round_pos_fixed p k 1 p); [exact Bn | | lia].
    rewrite bpow_IZR by lia. ring.
  - apply (round_pos_fixed p k n 0); [exact Bn | | lia].
    rewrite bpow_0. ring.
Qed.

Lemma round_to_IZR (n : Z) : Z.abs n <= 2 ^ p -> round_to p (IZR n) = IZR n.
Proof.
  intros Hn.
  destruct (Z_lt_le_dec 0 n) as [Hpos | Hneg].
  - unfold round_to. destruct (Rle_dec 0 (IZR n)) as [_ | H].
    + apply round_pos_IZR. lia.
    + exfalso. apply H. apply IZR_le. lia.
  - destruct (Z.eq_dec n 0) as [-> | Hne]; [apply round_to_0 |].
    replace (IZR n) with (- IZR (- n))%R by (rewrite opp_IZR; ring).
    rewrite round_to_opp. f_equal.
    unfold round_to. destruct (Rle_dec 0 (IZR (- n))) as [_ | H].
    + apply round_pos_IZR. lia.
    + exfalso. apply H. apply IZR_le. lia.
Qed.

(** The result lies on the grid of its binade, half a step from [x] at
    most. *)
Lemma round_to_grid (k : Z) (x : R) :
  (bpow k <= x < bpow (k + 1))%R ->
  exists n : Z,
    round_to p x = (IZR n * bpow (k - (p - 1)))%R
    /\ (Rabs (round_to p x - x) <= bpow (k - p))%R.
Proof.
  intros Hx. assert (0 < x)%R as Hpos by (pose proof (bpow_pos k); lra).
  unfold round_to. destruct (Rle_dec 0 x) as [_ | H]; [| exfalso; lra].
  exists (Znearest_even (x * bpow (p - 1 - k))). split.
  - apply round_pos_binade. exact Hx.
  - apply round_pos_error; assumption.
Qed.

End RoundTo.

(** ** The arithmetic of the target has the three classes *)

Lemma PI_lt_13_4 : (PI < 13 / 4)%R.
Proof.
  destruct (PI_2_3_7_ineq 0) as [_ H].
  unfold sum_f_R0, tg_alt, PI_2_3_7_tg, Ratan_seq in H. simpl in H.
  lra.
Qed.

Lemma tiny_bound : (0 < / 2 ^ 1075 <= 1 / 10 ^ 18)%R.
Proof.
  split.
  - apply Rinv_0_lt_compat, pow_lt. lra.
  - assert (2 ^ 1075 = 2 ^ 64 * 2 ^ 1011)%R as E by (rewrite <- pow_add; reflexivity).
    assert (1 <= 2 ^ 1011)%R as H1 by (apply pow_R1_Rle; lra).
    assert (10 ^ 18 <= 2 ^ 64)%R as H2 by lra.
    assert (0 < 10 ^ 18)%R as H3 by lra.
    unfold Rdiv. rewrite Rmult_1_l.
    apply Rinv_le_contravar; [exact H3 |]. rewrite E. nra.
Qed.

Lemma bpow_nat (n : nat) : bpow (Z.of_nat n) = (2 ^ n)%R.
Proof. unfold bpow. symmetry. apply pow_powerRZ. Qed.

Lemma bpow_opp_nat (n : nat) : bpow (- Z.of_nat n) = (/ 2 ^ n)%R.
Proof.
  pose proof (bpow_cancel (Z.of_nat n)) as H. rewrite bpow_nat in H.
  assert (0 < 2 ^ n)%R as Hp by (apply pow_lt; lra).
  apply Rmult_eq_reg_l with (2 ^ n)%R; [| lra].
  rewrite H, Rinv_r by lra. reflexivity.
Qed.

Lemma binary64_error (x : R) : (Rabs (binary64 x - x) <= Rabs x / 2 ^ 53)%R.
Proof.
  pose proof (round_to_error 53 x) as H.
  change (Z.opp 53) with (- Z.of_nat 53) in H. rewrite bpow_opp_nat in H. exact H.
Qed.

Lemma binary32_error (x : R) : (Rabs (binary32 x - x) <= Rabs x / 2 ^ 24)%R.
Proof.
  pose proof (round_to_error 24 x) as H.
  change (Z.opp 24) with (- Z.of_nat 24) in H. rewrite bpow_opp_nat in H. exact H.
Qed.

Lemma binary64_sin_error (x : R) : (Rabs (binary64 (sin x) - sin x) <= / 2 ^ 52)%R.
Proof.
  pose proof (binary64_error (sin x)) as H.
  pose proof (SIN_bound x) as Hs.
  assert (Rabs (sin x) <= 1)%R as Ha by (apply Rabs_le; lra).
  assert (/ 2 ^ 53 <= / 2 ^ 52)%R by lra.
  assert (0 < / 2 ^ 53)%R by lra.
  unfold Rdiv in H. nra.
Qed.

Lemma binary64_PI_error : (Rabs (binary64 PI - PI) <= / 2 ^ 51)%R.
Proof.
  pose proof (binary64_error PI) as H.
  pose proof PI_RGT_0. pose proof PI_4.
  rewrite (Rabs_right PI) in H by lra.
  assert (PI / 2 ^ 53 <= / 2 ^ 51)%R by lra. lra.
Qed.

#[export] Instance binary_ops_sound : FloatOpsSound binary_ops.
Proof.
  constructor; simpl.
  - intros x y. apply round_to_mono. lia.
  - intros x y. apply round_to_mono. lia.
  - intros n Hn. apply round_to_IZR; [lia | exact Hn].
  - intros n Hn. apply round_to_IZR; [lia | exact Hn].
  - intros x. pose proof (SIN_bound x) as [Hlo Hhi].
    split.
    + replace (-1)%R with (binary64 (IZR (-1))) by (apply round_to_IZR; simpl; lia).
      apply round_to_mono; [lia | exact Hlo].
    + replace 1%R with (binary64 (IZR 1)) by (apply round_to_IZR; simpl; lia).
      apply round_to_mono; [lia | exact Hhi].
  - rewrite sin_0. apply round_to_0.
Qed.

#[export] Instance binary_ops_accurate : FloatOpsAccurate binary_ops.
Proof.
  constructor; simpl.
  - intros x Hx. pose proof (binary32_error x) as H.
    rewrite (Rabs_right x) in H by lra. exact H.
  - intros x Hx. pose proof (binary64_error x) as H.
    rewrite (Rabs_right x) in H by lra. exact H.
  - intros x _. apply binary64_sin_error.
  - apply binary64_PI_error.
Qed.

#[export] Instance binary_ops_binary : FloatOpsBinary binary_ops.
Proof.
  constructor; simpl.
  - intros k x _ Hx.
    destruct (round_to_grid 24 k x Hx) as (n & En & He).
    exists n. split; [exact En | exact He].
  - intros x _. pose proof (binary64_error x) as H.
    pose proof tiny_bound. lra.
  - intros x _. apply binary64_sin_error.
  - apply binary64_PI_error.
Qed.

(** ** The motion function *)

Section MotionFacts.

Context {F : FloatOps} {HF : FloatOpsSound F}.

Lemma to_double_between (lo hi : Z) (x : R) :
  Z.abs lo <= 2 ^ 53 -> Z.abs hi <= 2 ^ 53 ->
  (IZR lo <= x <= IZR hi)%R -> (IZR lo <= to_double x <= IZR hi)%R.
Proof.
  intros Hlo Hhi [Hl Hh].
  split.
  - rewrite <- (to_double_int lo Hlo). apply to_double_mono. exact Hl.
  - rewrite <- (to_double_int hi Hhi). apply to_double_mono. exact Hh.
Qed.

Lemma to_float_between (lo hi : Z) (x : R) :
  Z.abs lo <= 2 ^ 24 -> Z.abs hi <= 2 ^ 24 ->
  (IZR lo <= x <= IZR hi)%R -> (IZR lo <= to_float x <= IZR hi)%R.
Proof.
  intros Hlo Hhi [Hl Hh].
  split.
  - rewrite <- (to_float_int lo Hlo). apply to_float_mono. exact Hl.
  - rewrite <- (to_float_int hi Hhi). apply to_float_mono. exact Hh.
Qed.

(** Whatever the rounding does in between, [position] stays within
    [CENTER_POS - AMPLITUDE] and [CENTER_POS + AMPLITUDE]. *)
Lemma position_range (t : R) : (1648 <= position t <= 2448)%R.
Proof.
  unfold position.
  set (a := to_double (to_double (to_double (2 * M_PI) * SPEED) * t)).
  pose proof (c_sin_range a) as Hs.
  apply (to_float_between 1648 2448); [lia | lia |].
  apply (to_double_between 1648 2448); [lia | lia |].
  assert (IZR (-400) <= to_double (AMPLITUDE * c_sin a) <= IZR 400)%R as Hp.
  { apply to_double_between; [lia | lia |]. unfold AMPLITUDE. lra. }
  unfold CENTER_POS. lra.
Qed.

End MotionFacts.

(** ** Facts about the sine *)

Lemma sqrt2_bounds : (14142 / 10000 < sqrt 2 < 14143 / 10000)%R.
Proof.
  pose proof Rlt_sqrt2_0 as Hpos.
  assert (sqrt 2 * sqrt 2 = 2)%R as Hsq by (apply sqrt_def; lra).
  split; nra.
Qed.

Lemma sin_quarter : (sin (PI * (1 / 4)) = sqrt 2 / 2)%R.
Proof.
  replace (PI * (1 / 4))%R with (PI / 4)%R by lra.
  rewrite sin_PI4.
  pose proof Rlt_sqrt2_0 as Hpos.
  assert (sqrt 2 * sqrt 2 = 2)%R as Hsq by (apply sqrt_def; lra).
  apply Rmult_eq_reg_l with (sqrt 2); [| lra].
  unfold Rdiv. rewrite Rmult_1_l, Rinv_r by lra. lra.
Qed.

Lemma sin_abs_le (x : R) : (Rabs (sin x) <= Rabs x)%R.
Proof.
  pose proof (SIN_bound x) as Hb. pose proof PI2_3_2 as Hpi.
  destruct (Rtotal_order x 0) as [Hx | [Hx | Hx]].
  - destruct (Rlt_le_dec (- PI) x) as [Hlt | Hge].
    + pose proof (sin_gt_x x Hx). pose proof (sin_lt_0_var x Hlt Hx).
      rewrite !Rabs_left by lra. lra.
    + rewrite (Rabs_left x) by lra. apply Rabs_le. lra.
  - subst. rewrite sin_0. lra.
  - pose proof (sin_lt_x x Hx).
    rewrite (Rabs_right x) by lra. apply Rabs_le.
    destruct (Rlt_le_dec x PI) as [Hlt | Hge].
    + pose proof (sin_gt_0 x Hx Hlt). lra.
    + lra.
Qed.

(** The sine moves no further than its argument. *)
Lemma sin_near (a b e : R) :
  (Rabs (a - b) <= e)%R -> (Rabs (sin a - sin b) <= e)%R.
Proof.
  intros H. rewrite form4.
  pose proof (COS_bound ((a + b) / 2)) as Hc.
  pose proof (Rabs_bound _ _ (sin_abs_le ((a - b) / 2))) as Hs.
  apply Rabs_bound in H.
  assert (Rabs ((a - b) / 2) <= e / 2)%R as Hh by (apply Rabs_le; lra).
  apply Rabs_le.
  set (c := cos ((a + b) / 2)) in *. set (s := sin ((a - b) / 2)) in *.
  split; nra.
Qed.

(** The sine of a thousandth of a half turn. *)
Lemma sin_milli : (29 / 10000 < sin (PI * (1 / 1000)) < 4 / 1000)%R.
Proof.
  pose proof PI2_3_2 as Hlo. pose proof PI_4 as Hhi.
  set (a := (PI * (1 / 1000))%R).
  assert (3 / 1000 < a <= 4 / 1000)%R as Ha by (unfold a; lra).
  split.
  - assert (0 <= a)%R as H0 by lra.
    assert (a <= PI)%R as H1 by (unfold a; lra).
    destruct (sin_bound a 0 H0 H1) as [Hb _].
    unfold sin_approx, sin_term in Hb. simpl in Hb.
    assert (a * (a * a) <= 64 / 1000000000)%R by nra.
    lra.
  - pose proof (sin_lt_x a). lra.
Qed.

(** On the first half of the period the sine is not below its value one
    millisecond in. *)
Lemma sin_first_half (x : R) :
  (1 / 1000 <= x <= 999 / 1000)%R -> (29 / 10000 < sin (PI * x))%R.
Proof.
  intros Hx. pose proof sin_milli as [Hm _].
  pose proof PI2_3_2 as Hpi3. pose proof PI_4 as Hpi4.
  assert (forall y, (1 / 1000 <= y <= 1 / 2)%R -> (29 / 10000 < sin (PI * y))%R) as Hup.
  { intros y Hy.
    apply Rlt_le_trans with (sin (PI * (1 / 1000))); [exact Hm |].
    apply sin_incr_1; nra. }
  destruct (Rle_dec x (1 / 2)) as [Hle | Hgt].
  - apply Hup. lra.
  - rewrite <- sin_PI_x.
    replace (PI - PI * x)%R with (PI * (1 - x))%R by ring.
    apply Hup. lra.
Qed.

Lemma sin_period_Z (x : R) (m : Z) :
  0 <= m -> sin (x + 2 * IZR m * PI) = sin x.
Proof.
  intros Hm. rewrite <- (Z2Nat.id m Hm), <- INR_IZR_INZ. apply sin_period.
Qed.

Lemma sin_odd_PI (x : R) (m : Z) :
  0 <= m -> sin (x + (2 * IZR m + 1) * PI) = (- sin x)%R.
Proof.
  intros Hm.
  replace (x + (2 * IZR m + 1) * PI)%R with (x + PI + 2 * IZR m * PI)%R by ring.
  rewrite (sin_period_Z _ m Hm). apply neg_sin.
Qed.

Lemma sin_small (a : R) :
  (0 < a <= 1 / 100)%R -> (a * (59999 / 60000) <= sin a < a)%R.
Proof.
  intros Ha. pose proof PI2_3_2 as Hpi.
  split.
  - assert (0 <= a)%R as H0 by lra. assert (a <= PI)%R as H1 by lra.
    destruct (sin_bound a 0 H0 H1) as [Hb _].
    unfold sin_approx, sin_term in Hb. simpl in Hb.
    assert (a * (a * a) <= a * (1 / 10000))%R by nra.
    lra.
  - apply sin_lt_x. lra.
Qed.

Lemma Zfloor_close (a b : R) :
  (Rabs (IZR (Zfloor a - Zfloor b)) < Rabs (a - b) + 1)%R.
Proof.
  pose proof (Zfloor_bound a) as Ha. pose proof (Zfloor_bound b) as Hb.
  rewrite minus_IZR.
  unfold Rabs. destruct (Rcase_abs (IZR (Zfloor a) - IZR (Zfloor b)));
    destruct (Rcase_abs (a - b)); lra.
Qed.

(** ** Elapsed time *)

(** The unsigned subtraction gives the true difference of two readings of
    the counter as long as that difference fits in an [unsigned long]. *)
Lemma ulong_difference (now start : Z) :
  0 <= now - start < 2 ^ ULONG_BITS ->
  ulong (ulong now - ulong start) = now - start.
Proof.
  intros Hd. unfold ulong.
  rewrite <- Zminus_mod. apply Z.mod_small. exact Hd.
Qed.

Lemma ulong_nonneg (z : Z) : 0 <= ulong z.
Proof. unfold ulong. apply Z.mod_pos_bound. reflexivity. Qed.

Section ElapsedFacts.

Context {F : FloatOps} {HF : FloatOpsSound F}.

Lemma to_double_0 : to_double 0 = 0%R.
Proof. apply (to_double_int 0). simpl. lia. Qed.

Lemma to_float_0 : to_float 0 = 0%R.
Proof. apply (to_float_int 0). simpl. lia. Qed.

Lemma elapsed_seconds_same (now : Z) : elapsed_seconds now now = 0%R.
Proof.
  unfold elapsed_seconds. rewrite Z.sub_diag.
  change (ulong 0) with 0.
  replace (0 / 1000)%R with 0%R by lra.
  rewrite to_double_0. apply to_float_0.
Qed.

Lemma position_0 : position 0 = 2048%R.
Proof.
  unfold position. rewrite Rmult_0_r, to_double_0, c_sin_0, Rmult_0_r, to_double_0.
  unfold CENTER_POS. rewrite Rplus_0_r.
  rewrite (to_double_int 2048) by (simpl; lia).
  apply (to_float_int 2048). simpl; lia.
Qed.

Lemma goal_position_0 : goal_position 0 = 2048.
Proof. unfold goal_position. rewrite position_0. apply int_of_float_IZR. Qed.

Lemma iteration_t_before_wrap (w : world) (k : N) :
  0 <= clock w (N.succ k) - clock w 0%N < 2 ^ ULONG_BITS ->
  iteration_t w k
  = to_float (to_double (IZR (clock w (N.succ k) - clock w 0%N) / 1000)).
Proof.
  intros Hd. unfold iteration_t, elapsed_seconds.
  rewrite ulong_difference by exact Hd. reflexivity.
Qed.

End ElapsedFacts.

Lemma ulong_range (z : Z) : 0 <= ulong z < 2 ^ ULONG_BITS.
Proof. unfold ulong. apply Z.mod_pos_bound. reflexivity. Qed.

(** ** Error bounds from the accuracy of the operations *)

Section Accuracy.

Context {F : FloatOps} {HA : FloatOpsAccurate F}.

Local Open Scope R_scope.

Lemma to_float_close (x : R) :
  / 1024 <= x <= 4096 ->
  x - x * (6 / 100000000) <= to_float x <= x + x * (6 / 100000000).
Proof.
  intros Hx. pose proof (Rabs_bound _ _ (to_float_error x Hx)) as H.
  assert (x / 2 ^ 24 <= x * (6 / 100000000)) by lra.
  lra.
Qed.

Lemma to_double_close (x : R) :
  / 1024 <= x <= 4096 ->
  x - x / 10 ^ 15 <= to_double x <= x + x / 10 ^ 15.
Proof.
  intros Hx. pose proof (Rabs_bound _ _ (to_double_error x Hx)) as H.
  assert (x / 2 ^ 53 <= x / 10 ^ 15) by lra.
  lra.
Qed.

(** [t]: the quotient, rounded to [double] and then to [float]. *)
Lemma seconds_close (t0 : R) :
  1 / 1000 <= t0 <= 1 ->
  - (7 / 100000000) <= to_float (to_double t0) - t0 <= 7 / 100000000.
Proof.
  intros Ht0.
  assert (/ 1024 <= t0 <= 4096) as Hr0 by lra.
  pose proof (to_double_close t0 Hr0) as Hd0.
  set (d0 := to_double t0) in *.
  assert (/ 1024 <= d0 <= 4096) as Hr1 by lra.
  pose proof (to_float_close d0 Hr1) as Ht.
  lra.
Qed.

(** [2 * M_PI * SPEED]. *)
Lemma omega_close :
  - (1 / 10 ^ 14) <= to_double (to_double (2 * M_PI) * SPEED) - PI <= 1 / 10 ^ 14.
Proof.
  pose proof PI2_3_2 as Hpi3. pose proof PI_4 as Hpi4.
  pose proof (Rabs_bound _ _ M_PI_error) as Hm.
  assert (/ 2 ^ 51 <= 1 / 10 ^ 15) as H51 by lra.
  assert (/ 1024 <= 2 * M_PI <= 4096) as Hr1 by lra.
  pose proof (to_double_close (2 * M_PI) Hr1) as Hd1.
  set (d1 := to_double (2 * M_PI)) in *.
  unfold SPEED.
  assert (/ 1024 <= d1 * (1 / 2) <= 4096) as Hr2 by lra.
  pose proof (to_double_close (d1 * (1 / 2)) Hr2) as Hd2.
  lra.
Qed.

Lemma product_close (d t t0 : R) :
  1 / 1000 <= t0 <= 1 ->
  - (7 / 100000000) <= t - t0 <= 7 / 100000000 ->
  - (1 / 10 ^ 14) <= d - PI <= 1 / 10 ^ 14 ->
  - (3 / 10000000) <= d * t - PI * t0 <= 3 / 10000000
  /\ 2 / 1000 <= d * t <= 5.
Proof.
  intros Ht0 Ht Hd.
  pose proof PI2_3_2 as Hpi3. pose proof PI_4 as Hpi4.
  assert (d * t - PI * t0 = (d - PI) * t + PI * (t - t0)) as E by ring.
  assert (- (2 / 10 ^ 14) <= (d - PI) * t <= 2 / 10 ^ 14) as H1 by (split; nra).
  assert (- (28 / 100000000) <= PI * (t - t0) <= 28 / 100000000) as H2 by (split; nra).
  assert (3 / 1000 <= PI * t0 <= 4) as H3 by (split; nra).
  lra.
Qed.

(** Between a millisecond and a second of elapsed time, and while the sine
    is not below a thousandth, rounding moves [position] by less than a
    thousandth of a position unit. *)
Lemma position_accurate (t0 : R) :
  1 / 1000 <= t0 <= 1 ->
  1 / 1000 <= sin (PI * t0) ->
  Rabs (position (to_float (to_double t0)) - (2048 + 400 * sin (PI * t0)))
  <= 1 / 1000.
Proof.
  intros Ht0 Hsin.
  pose proof (SIN_bound (PI * t0)) as HS.
  unfold position.
  pose proof (seconds_close t0 Ht0) as Ht.
  set (t := to_float (to_double t0)) in *.
  pose proof omega_close as Hd2.
  set (d2 := to_double (to_double (2 * M_PI) * SPEED)) in *.
  destruct (product_close d2 t t0 Ht0 Ht Hd2) as [Hp3 Hp3r].
  clear Ht Hd2 Ht0.
  assert (/ 1024 <= d2 * t <= 4096) as Hr3 by lra.
  pose proof (to_double_close (d2 * t) Hr3) as Hd3.
  set (d3 := to_double (d2 * t)) in *.
  assert (Rabs (d3 - PI * t0) <= 4 / 10000000) as Hd3' by (apply Rabs_le; lra).
  assert (0 <= d3 <= 8) as Hr4 by lra.
  clear Hd3 Hp3 Hp3r Hr3.
  apply sin_near in Hd3'. apply Rabs_bound in Hd3'.
  pose proof (Rabs_bound _ _ (c_sin_error d3 Hr4)) as Hcs.
  assert (/ 2 ^ 52 <= 1 / 10 ^ 15) as H52 by lra.
  set (S := sin (PI * t0)) in *.
  set (s := c_sin d3) in *.
  assert (- (5 / 10000000) <= s - S <= 5 / 10000000) as Hs by lra.
  clear Hcs Hd3' H52 Hr4.
  unfold CENTER_POS, AMPLITUDE.
  assert (/ 1024 <= 400 * s <= 4096) as Hr5 by lra.
  pose proof (to_double_close (400 * s) Hr5) as Hd4.
  set (d4 := to_double (400 * s)) in *.
  assert (/ 1024 <= 2048 + d4 <= 4096) as Hr6 by lra.
  pose proof (to_double_close (2048 + d4) Hr6) as Hd5.
  set (d5 := to_double (2048 + d4)) in *.
  assert (/ 1024 <= d5 <= 4096) as Hr7 by lra.
  pose proof (to_float_close d5 Hr7) as Hpos.
  apply Rabs_le. lra.
Qed.

End Accuracy.

(** A call of [loop] that finds 250 ms elapsed sends 2330 under every
    accurate rounding; the nearest integer to the sine expression is 2331. *)
Lemma quarter_second_goal (F : FloatOps) (HA : FloatOpsAccurate F) :
  goal_position (elapsed_seconds 250 0) = 2330.
Proof.
  unfold goal_position, elapsed_seconds.
  change (ulong (250 - 0)) with 250.
  replace (250 / 1000)%R with (1 / 4)%R by lra.
  assert (1 / 1000 <= 1 / 4 <= 1)%R as Ht0 by lra.
  pose proof sin_quarter as Hsin. pose proof sqrt2_bounds as Hs.
  assert (1 / 1000 <= sin (PI * (1 / 4)))%R as Hlow by lra.
  pose proof (Rabs_bound _ _ (position_accurate (1 / 4) Ht0 Hlow)) as Hp.
  rewrite Hsin in Hp.
  rewrite int_of_float_nonneg by lra.
  apply Zfloor_eq. lra.
Qed.

(** With the counter at 100 ms and then at 101 ms in its first call,
    [loop] sends 2049 under every accurate rounding. *)
Lemma one_millisecond_goal (F : FloatOps) (HA : FloatOpsAccurate F) :
  goal_position (elapsed_seconds (ulong 101) (ulong 100)) = 2049.
Proof.
  unfold goal_position, elapsed_seconds.
  change (ulong (ulong 101 - ulong 100)) with 1.
  assert (1 / 1000 <= 1 / 1000 <= 1)%R as Ht0 by lra.
  pose proof sin_milli as Hs.
  assert (1 / 1000 <= sin (PI * (1 / 1000)))%R as Hlow by lra.
  pose proof (Rabs_bound _ _ (position_accurate (1 / 1000) Ht0 Hlow)) as Hp.
  rewrite int_of_float_nonneg by lra.
  apply Zfloor_eq. lra.
Qed.

(** With one reading every 20 ms the elapsed time falls from more than
    4294967 s to less than 1 s at the wrap, under every monotone rounding. *)
Lemma elapsed_time_wraps_rounded (F : FloatOps) (HF : FloatOpsSound F) :
  (iteration_t steady_world 214748364 <= 1
   /\ 4294967 <= iteration_t steady_world 214748363)%R.
Proof.
  unfold iteration_t, elapsed_seconds.
  replace (ulong (ulong (clock steady_world (N.succ 214748364))
                  - ulong (clock steady_world 0)))
    with 4 by (vm_compute; reflexivity).
  replace (ulong (ulong (clock steady_world (N.succ 214748363))
                  - ulong (clock steady_world 0)))
    with 4294967280 by (vm_compute; reflexivity).
  split.
  - rewrite <- (to_float_int 1) by (simpl; lia).
    apply to_float_mono.
    rewrite <- (to_double_int 1) by (simpl; lia).
    apply to_double_mono. lra.
  - rewrite <- (to_float_int 4294967) at 1 by (simpl; lia).
    apply to_float_mono.
    rewrite <- (to_double_int 4294967) at 1 by (simpl; lia).
    apply to_double_mono. lra.
Qed.

(** ** Error bounds from the binary formats *)

Section BinaryFacts.

Context {F : FloatOps} {HF : FloatOpsSound F} {HB : FloatOpsBinary F}.

Local Open Scope R_scope.

(** A [double] operation on a value below 4096 in magnitude. *)
Lemma to_double_near (x b : R) :
  Rabs x <= b -> b <= 2 ^ 25 ->
  - (b * (12 / 10 ^ 17) + 1 / 10 ^ 18) <= to_double x - x <= b * (12 / 10 ^ 17) + 1 / 10 ^ 18.
Proof.
  intros Hx Hb.
  assert (Rabs x <= 2 ^ 1000) as Hr.
  { apply Rle_trans with (2 ^ 25); [lra |].
    apply Rle_pow; [lra | lia]. }
  pose proof (Rabs_bound _ _ (to_double_binary64 x Hr)) as H.
  pose proof tiny_bound as Ht.
  assert (Rabs x / 2 ^ 53 <= b * (12 / 10 ^ 17)) as Hrel.
  { pose proof (Rabs_pos x). assert (/ 2 ^ 53 <= 12 / 10 ^ 17) by lra.
    unfold Rdiv at 1. nra. }
  lra.
Qed.

(** [2 * M_PI * SPEED], the factor of [t]. *)
Lemma omega_error :
  - (2 / 10 ^ 15) <= to_double (to_double (2 * M_PI) * SPEED) - PI <= 2 / 10 ^ 15.
Proof.
  pose proof PI2_3_2 as Hpi3. pose proof PI_4 as Hpi4.
  pose proof (Rabs_bound _ _ M_PI_binary64) as Hm.
  assert (/ 2 ^ 51 <= 5 / 10 ^ 16) as H51 by lra.
  assert (Rabs (2 * M_PI) <= 9) as Hr1 by (apply Rabs_le; lra).
  pose proof (to_double_near (2 * M_PI) 9 Hr1 ltac:(lra)) as Hd1.
  set (d1 := to_double (2 * M_PI)) in *.
  unfold SPEED.
  assert (Rabs (d1 * (1 / 2)) <= 5) as Hr2 by (apply Rabs_le; lra).
  pose proof (to_double_near (d1 * (1 / 2)) 5 Hr2 ltac:(lra)) as Hd2.
  lra.
Qed.

(** The argument of the sine for a [float] [t]. *)
Lemma arg_error (t : R) :
  0 <= t <= 2 ^ 23 ->
  - (t * (3 / 10 ^ 15) + 1 / 10 ^ 18)
  <= to_double (to_double (to_double (2 * M_PI) * SPEED) * t) - PI * t
  <= t * (3 / 10 ^ 15) + 1 / 10 ^ 18.
Proof.
  intros Ht.
  pose proof PI2_3_2 as Hpi3. pose proof PI_4 as Hpi4.
  pose proof omega_error as Hw. pose proof PI_lt_13_4 as Hpi.
  set (d2 := to_double (to_double (2 * M_PI) * SPEED)) in *.
  assert (0 <= d2 <= 326 / 100) as Hd2 by lra.
  assert (0 <= d2 * t <= 326 / 100 * t) as Hp
    by (split; [apply Rmult_le_pos | apply Rmult_le_compat_r]; lra).
  assert (Rabs (d2 * t) <= 326 / 100 * t) as Hr by (apply Rabs_le; lra).
  assert (326 / 100 * t <= 2 ^ 25) as Hb by lra.
  pose proof (to_double_near (d2 * t) (326 / 100 * t) Hr Hb) as Hd.
  assert (- (t * (2 / 10 ^ 15)) <= d2 * t - PI * t <= t * (2 / 10 ^ 15)) as He.
  { replace (d2 * t - PI * t) with (t * (d2 - PI)) by ring.
    replace (- (t * (2 / 10 ^ 15))) with (t * - (2 / 10 ^ 15)) by ring.
    split; apply Rmult_le_compat_l; lra. }
  lra.
Qed.

(** The library's sine at that argument. *)
Lemma sine_error (t : R) :
  0 <= t <= 2 ^ 23 ->
  - (t * (3 / 10 ^ 15) + 3 / 10 ^ 16)
  <= c_sin (to_double (to_double (to_double (2 * M_PI) * SPEED) * t)) - sin (PI * t)
  <= t * (3 / 10 ^ 15) + 3 / 10 ^ 16.
Proof.
  intros Ht. pose proof PI_4 as Hpi4. pose proof PI_RGT_0 as Hpi0.
  pose proof (arg_error t Ht) as Ha.
  set (a := to_double (to_double (to_double (2 * M_PI) * SPEED) * t)) in *.
  pose proof PI_lt_13_4 as Hpi.
  assert (0 <= PI * t <= 13 / 4 * t) as Hpt
    by (split; [apply Rmult_le_pos | apply Rmult_le_compat_r]; lra).
  assert (Rabs a <= 2 ^ 25) as Hr by (apply Rabs_le; lra).
  pose proof (Rabs_bound _ _ (c_sin_binary64 a Hr)) as Hs.
  assert (Rabs (a - PI * t) <= t * (3 / 10 ^ 15) + 1 / 10 ^ 18) as Hn
    by (apply Rabs_le; lra).
  pose proof (Rabs_bound _ _ (sin_near _ _ _ Hn)) as Hl.
  assert (/ 2 ^ 52 <= 25 / 10 ^ 17) as H52 by lra.
  lra.
Qed.

(** The [double] value that is stored in [position]. *)
Lemma sum_error (t : R) :
  0 <= t <= 2 ^ 23 ->
  - (11 / 10 ^ 6)
  <= to_double
       (CENTER_POS
        + to_double
            (AMPLITUDE
             * c_sin (to_double (to_double (to_double (2 * M_PI) * SPEED) * t))))
     - (2048 + 400 * sin (PI * t))
  <= 11 / 10 ^ 6.
Proof.
  intros Ht. pose proof (sine_error t Ht) as Hs.
  pose proof (SIN_bound (PI * t)) as HS.
  set (s := c_sin (to_double (to_double (to_double (2 * M_PI) * SPEED) * t))) in *.
  set (S := sin (PI * t)) in *.
  unfold CENTER_POS, AMPLITUDE.
  assert (Rabs (400 * s) <= 401) as Hr4 by (apply Rabs_le; lra).
  pose proof (to_double_near (400 * s) 401 Hr4 ltac:(lra)) as Hd4.
  set (d4 := to_double (400 * s)) in *.
  assert (Rabs (2048 + d4) <= 2450) as Hr5 by (apply Rabs_le; lra).
  pose proof (to_double_near (2048 + d4) 2450 Hr5 ltac:(lra)) as Hd5.
  lra.
Qed.

(** Storing a value between 1024 and 4096 in a [float]: the result is on
    the grid of its binade, half a step away at most. *)
Lemma to_float_store (x : R) :
  1024 <= x < 4096 ->
  exists n : Z,
    (to_float x = IZR n / 8192 /\ - (/ 16384) <= to_float x - x <= / 16384)
    \/ (to_float x = IZR n / 4096 /\ - (/ 8192) <= to_float x - x <= / 8192).
Proof.
  intros Hx.
  assert (bpow 10 = 1024) as E10 by (rewrite (bpow_IZR 10) by lia; reflexivity).
  assert (bpow 11 = 2048) as E11 by (rewrite (bpow_IZR 11) by lia; reflexivity).
  assert (bpow 12 = 4096) as E12 by (rewrite (bpow_IZR 12) by lia; reflexivity).
  assert (bpow (-12) = / 4096) as N12 by (unfold bpow; simpl; lra).
  assert (bpow (-13) = / 8192) as N13 by (unfold bpow; simpl; lra).
  assert (bpow (-14) = / 16384) as N14 by (unfold bpow; simpl; lra).
  destruct (Rlt_le_dec x 2048) as [Hlt | Hge].
  - destruct (to_float_binary32 10 x ltac:(lia)) as (n & En & He).
    { change (10 + 1)%Z with 11%Z. rewrite E10, E11. lra. }
    change (10 - 23)%Z with (-13)%Z in En. change (10 - 24)%Z with (-14)%Z in He.
    rewrite N13 in En. rewrite N14 in He. apply Rabs_bound in He.
    exists n. left. split; [rewrite En; reflexivity | lra].
  - destruct (to_float_binary32 11 x ltac:(lia)) as (n & En & He).
    { change (11 + 1)%Z with 12%Z. rewrite E11, E12. lra. }
    change (11 - 23)%Z with (-12)%Z in En. change (11 - 24)%Z with (-13)%Z in He.
    rewrite N12 in En. rewrite N13 in He. apply Rabs_bound in He.
    exists n. right. split; [rewrite En; reflexivity | lra].
Qed.

(** For a [float] [t] the stored position is within two ten-thousandths of
    the sine expression at [t]. *)
Lemma position_error_float (t : R) :
  0 <= t <= 2 ^ 23 ->
  - (2 / 10 ^ 4) <= position t - (2048 + 400 * sin (PI * t)) <= 2 / 10 ^ 4.
Proof.
  intros Ht. pose proof (sum_error t Ht) as Hs.
  pose proof (SIN_bound (PI * t)) as HS.
  unfold position.
  set (P := to_double _) in *.
  destruct (to_float_store P ltac:(lra)) as (n & [[_ He] | [_ He]]); lra.
Qed.

(** When the sine expression is an integer the stored position is that
    integer: the error of the [double] operations is lost in the [float]. *)
Lemma position_at_integer (t : R) (N : Z) :
  0 <= t <= 2 ^ 23 ->
  (1024 < N < 4096)%Z ->
  2048 + 400 * sin (PI * t) = IZR N ->
  position t = IZR N.
Proof.
  intros Ht [Nlo Nhi] HN. pose proof (sum_error t Ht) as Hs.
  rewrite HN in Hs. unfold position. set (P := to_double _) in *.
  assert (IZR 1025 <= IZR N <= IZR 4095) as [N1 N2] by (split; apply IZR_le; lia).
  destruct (to_float_store P ltac:(lra)) as (n & [[En He] | [En He]]);
    rewrite En in He |- *.
  - assert (IZR (-1) < IZR (n - 8192 * N) < IZR 1) as [H1 H2].
    { rewrite minus_IZR, mult_IZR. lra. }
    apply lt_IZR in H1, H2.
    assert (n = 8192 * N)%Z as -> by lia.
    rewrite mult_IZR. field.
  - assert (IZR (-1) < IZR (n - 4096 * N) < IZR 1) as [H1 H2].
    { rewrite minus_IZR, mult_IZR. lra. }
    apply lt_IZR in H1, H2.
    assert (n = 4096 * N)%Z as -> by lia.
    rewrite mult_IZR. field.
Qed.

(** The elapsed time in seconds, for [e] milliseconds. *)
Lemma elapsed_error (e : Z) :
  (0 <= e < 2 ^ 32)%Z ->
  0 <= to_float (to_double (IZR e / 1000)) <= 2 ^ 23
  /\ - (IZR e / 1000 * (6 / 10 ^ 8))
     <= to_float (to_double (IZR e / 1000)) - IZR e / 1000
     <= IZR e / 1000 * (6 / 10 ^ 8).
Proof.
  intros [Hlo Hhi].
  destruct (Z.eq_dec e 0) as [-> | Hne].
  - replace (0 / 1000) with 0 by lra.
    rewrite (to_double_int 0), (to_float_int 0) by (simpl; lia). lra.
  - assert (IZR 1 <= IZR e <= IZR (2 ^ 32 - 1)) as [E1 E2] by (split; apply IZR_le; lia).
    change (2 ^ 32 - 1)%Z with 4294967295%Z in E2.
    set (x0 := IZR e / 1000) in *.
    assert (1 / 1000 <= x0 <= 4294967295 / 1000) as Hx0 by (unfold x0; lra).
    assert (Rabs x0 <= x0) as Hr by (apply Rabs_le; lra).
    pose proof (to_double_near x0 x0 Hr ltac:(lra)) as Hd.
    set (x1 := to_double x0) in *.
    assert (0 < x1) as Hx1 by lra.
    pose proof (mag2_spec x1 Hx1) as Bk. set (k := mag2 x1) in *.
    assert (bpow (-11) = / 2048) as N11 by (unfold bpow; simpl; lra).
    assert (bpow 23 = 8388608) as E23 by (rewrite (bpow_IZR 23) by lia; reflexivity).
    assert (-11 < k + 1)%Z as K1 by (apply bpow_lt_inv; rewrite N11; lra).
    assert (k < 23)%Z as K2 by (apply bpow_lt_inv; rewrite E23; lra).
    destruct (to_float_binary32 k x1 ltac:(lia) Bk) as (n & _ & He).
    apply Rabs_bound in He.
    assert (bpow (k - 24) <= x1 * (/ 2 ^ 24)) as Hu.
    { replace (k - 24)%Z with (k + - Z.of_nat 24)%Z by lia.
      rewrite bpow_add, bpow_opp_nat.
      apply Rmult_le_compat_r; [| apply Bk].
      apply Rlt_le, Rinv_0_lt_compat, pow_lt. lra. }
    assert (/ 2 ^ 24 <= 597 / 10 ^ 10) as H24 by lra.
    assert (x1 * (/ 2 ^ 24) <= x1 * (597 / 10 ^ 10)) as Hu'
      by (apply Rmult_le_compat_l; lra).
    split; [split |].
    + lra.
    + assert (x1 <= 4294968) by lra.
      assert (to_float x1 <= to_float (IZR 4294968)) as Hm by (apply to_float_mono; lra).
      rewrite (to_float_int 4294968) in Hm by (simpl; lia). lra.
    + assert (x1 * (597 / 10 ^ 10) <= x0 * (598 / 10 ^ 10)) by nra.
      assert (x0 * (12 / 10 ^ 17) + 1 / 10 ^ 18 <= x0 * (1 / 10 ^ 10)) by nra.
      lra.
Qed.

(** For the true elapsed time of [e] milliseconds the stored position is
    within [0.001 + 0.0001 t] of the sine expression at [t = e / 1000]. *)
Lemma position_error (e : Z) :
  (0 <= e < 2 ^ 32)%Z ->
  Rabs (position (to_float (to_double (IZR e / 1000)))
        - (CENTER_POS + AMPLITUDE * sin (2 * PI * SPEED * (IZR e / 1000))))
  <= 1 / 1000 + IZR e / 1000 / 10000.
Proof.
  intros He. destruct (elapsed_error e He) as [Ht Hd].
  set (t := to_float (to_double (IZR e / 1000))) in *.
  set (t0 := IZR e / 1000) in *.
  assert (0 <= t0) as Ht0.
  { unfold t0. destruct He as [He _]. apply IZR_le in He. lra. }
  pose proof (position_error_float t Ht) as Hp.
  unfold CENTER_POS, AMPLITUDE, SPEED.
  replace (2 * PI * (1 / 2) * t0) with (PI * t0) by lra.
  pose proof PI_lt_13_4 as Hpi. pose proof PI_RGT_0 as Hpi0.
  assert (Rabs (PI * t - PI * t0) <= t0 * (2 / 10 ^ 7)) as Harg.
  { replace (PI * t - PI * t0) with (PI * (t - t0)) by ring.
    apply Rabs_le. split; nra. }
  pose proof (Rabs_bound _ _ (sin_near _ _ _ Harg)) as Hs.
  apply Rabs_le. lra.
Qed.

End BinaryFacts.

Section BinaryClaims.

Context {F : FloatOps} {HF : FloatOpsSound F} {HB : FloatOpsBinary F}.

Lemma goal_position_floor (t : R) : goal_position t = Zfloor (position t).
Proof.
  unfold goal_position. apply int_of_float_nonneg.
  pose proof (position_range t). lra.
Qed.

(** The result of the [float] store is the grid point of the binade that
    is less than half a step away. *)
Lemma to_float_exact (k m : Z) (x : R) :
  -126 <= k <= 126 -> (bpow k <= x < bpow (k + 1))%R ->
  (Rabs (x - IZR m * bpow (k - 23)) < bpow (k - 24))%R ->
  to_float x = (IZR m * bpow (k - 23))%R.
Proof.
  intros Hk Hx Hm.
  destruct (to_float_binary32 k x Hk Hx) as (n & En & He).
  rewrite En in He |- *.
  pose proof (bpow_pos (k - 24)) as Hu.
  assert (bpow (k - 23) = 2 * bpow (k - 24))%R as Hh.
  { replace (k - 23) with (1 + (k - 24)) by ring. rewrite bpow_add, bpow_1. reflexivity. }
  rewrite Hh in *.
  apply Rabs_bound in He.
  assert (- bpow (k - 24) < x - IZR m * (2 * bpow (k - 24)) < bpow (k - 24))%R as Hm'.
  { revert Hm. unfold Rabs. destruct (Rcase_abs _); lra. }
  assert (IZR (-1) < IZR (n - m) < IZR 1)%R as [H1 H2].
  { rewrite minus_IZR. split; nra. }
  apply lt_IZR in H1, H2. assert (n = m) as -> by lia. reflexivity.
Qed.

Lemma elapsed_late_1 :
  elapsed_seconds 16383001 0 = (16776193 / 1024)%R.
Proof.
  unfold elapsed_seconds. change (ulong (16383001 - 0)) with 16383001.
  set (x0 := (16383001 / 1000)%R).
  assert (Rabs x0 <= 16384)%R as Hr by (apply Rabs_le; unfold x0; lra).
  pose proof (to_double_near x0 16384 Hr ltac:(lra)) as Hd.
  set (x1 := to_double x0) in *.
  assert (bpow 13 = 8192)%R as E13 by (rewrite (bpow_IZR 13) by lia; reflexivity).
  assert (bpow 14 = 16384)%R as E14 by (rewrite (bpow_IZR 14) by lia; reflexivity).
  assert (bpow (-10) = / 1024)%R as N10 by (unfold bpow; simpl; lra).
  assert (bpow (-11) = / 2048)%R as N11 by (unfold bpow; simpl; lra).
  rewrite (to_float_exact 13 16776193 x1).
  - change (13 - 23) with (-10). rewrite N10. reflexivity.
  - lia.
  - change (13 + 1) with 14. rewrite E13, E14. unfold x0 in Hd. lra.
  - change (13 - 23) with (-10). change (13 - 24) with (-11).
    rewrite N10, N11. unfold x0 in Hd.
    unfold Rabs. destruct (Rcase_abs _); lra.
Qed.

Lemma elapsed_late_2 :
  elapsed_seconds 16385001 0 = (8389121 / 512)%R.
Proof.
  unfold elapsed_seconds. change (ulong (16385001 - 0)) with 16385001.
  set (x0 := (16385001 / 1000)%R).
  assert (Rabs x0 <= 16386)%R as Hr by (apply Rabs_le; unfold x0; lra).
  pose proof (to_double_near x0 16386 Hr ltac:(lra)) as Hd.
  set (x1 := to_double x0) in *.
  assert (bpow 14 = 16384)%R as E14 by (rewrite (bpow_IZR 14) by lia; reflexivity).
  assert (bpow 15 = 32768)%R as E15 by (rewrite (bpow_IZR 15) by lia; reflexivity).
  assert (bpow (-9) = / 512)%R as N9 by (unfold bpow; simpl; lra).
  assert (bpow (-10) = / 1024)%R as N10 by (unfold bpow; simpl; lra).
  rewrite (to_float_exact 14 8389121 x1).
  - change (14 - 23) with (-9). rewrite N9. reflexivity.
  - lia.
  - change (14 + 1) with 15. rewrite E14, E15. unfold x0 in Hd. lra.
  - change (14 - 23) with (-9). change (14 - 24) with (-10).
    rewrite N9, N10. unfold x0 in Hd.
    unfold Rabs. destruct (Rcase_abs _); lra.
Qed.

(** One period apart, late in a run: 16383.001 s after the start the
    sketch sends 2046, and 16385.001 s after the start it sends 2045. *)
Lemma late_period_goals :
  goal_position (elapsed_seconds 16383001 0) = 2046
  /\ goal_position (elapsed_seconds 16385001 0) = 2045.
Proof.
  pose proof PI2_3_2 as Hpi3. pose proof PI_lt_13_4 as Hpi.
  split.
  - rewrite goal_position_floor, elapsed_late_1.
    pose proof (position_error_float (16776193 / 1024) ltac:(lra)) as Hp.
    replace (PI * (16776193 / 1024))%R
      with (PI / 1024 + (2 * IZR 8191 + 1) * PI)%R in Hp by field.
    rewrite sin_odd_PI in Hp by lia.
    pose proof (sin_small (PI / 1024) ltac:(lra)) as Hs.
    apply Zfloor_eq. lra.
  - rewrite goal_position_floor, elapsed_late_2.
    pose proof (position_error_float (8389121 / 512) ltac:(lra)) as Hp.
    replace (PI * (8389121 / 512))%R
      with (PI / 512 + (2 * IZR 8192 + 1) * PI)%R in Hp by field.
    rewrite sin_odd_PI in Hp by lia.
    pose proof (sin_small (PI / 512) ltac:(lra)) as Hs.
    apply Zfloor_eq. lra.
Qed.

End BinaryClaims.

(** ** Elapsed times that the [float] holds exactly *)

Section ExactTimes.

Context {F : FloatOps} {HF : FloatOpsSound F} {HB : FloatOpsBinary F}.

(** A whole number of seconds is stored as it is. *)
Lemma elapsed_whole_seconds (now start k : Z) :
  ulong (now - start) = 1000 * k -> elapsed_seconds now start = IZR k.
Proof.
  intros He. pose proof (ulong_range (now - start)) as Hr.
  unfold ULONG_BITS in Hr.
  unfold elapsed_seconds. rewrite He, mult_IZR.
  replace (1000 * IZR k / 1000)%R with (IZR k) by field.
  rewrite to_double_int by lia. apply to_float_int. lia.
Qed.

Lemma elapsed_half_second (now start : Z) :
  ulong (now - start) = 500 -> elapsed_seconds now start = (1 / 2)%R.
Proof.
  intros He. unfold elapsed_seconds. rewrite He.
  assert (Rabs (500 / 1000) <= 1)%R as Hr by (apply Rabs_le; lra).
  pose proof (to_double_near (500 / 1000) 1 Hr ltac:(lra)) as Hd.
  set (x1 := to_double (500 / 1000)) in *.
  assert (bpow (-1) = / 2)%R as N1 by (unfold bpow; simpl; lra).
  assert (bpow (-2) = / 4)%R as N2 by (unfold bpow; simpl; lra).
  assert (bpow (-24) = / 16777216)%R as N24 by (unfold bpow; simpl; lra).
  assert (bpow (-25) = / 33554432)%R as N25 by (unfold bpow; simpl; lra).
  assert (bpow (-26) = / 67108864)%R as N26 by (unfold bpow; simpl; lra).
  destruct (Rlt_le_dec x1 (1 / 2)) as [Hlt | Hge].
  - rewrite (to_float_exact (-2) 16777216 x1).
    + change (-2 - 23) with (-25). rewrite N25. lra.
    + lia.
    + change (-2 + 1) with (-1). rewrite N1, N2. lra.
    + change (-2 - 23) with (-25). change (-2 - 24) with (-26).
      rewrite N25, N26. unfold Rabs. destruct (Rcase_abs _); lra.
  - rewrite (to_float_exact (-1) 8388608 x1).
    + change (-1 - 23) with (-24). rewrite N24. lra.
    + lia.
    + change (-1 + 1) with 0. rewrite N1, bpow_0. lra.
    + change (-1 - 23) with (-24). change (-1 - 24) with (-25).
      rewrite N24, N25. unfold Rabs. destruct (Rcase_abs _); lra.
Qed.

Lemma elapsed_three_halves (now start : Z) :
  ulong (now - start) = 1500 -> elapsed_seconds now start = (3 / 2)%R.
Proof.
  intros He. unfold elapsed_seconds. rewrite He.
  assert (Rabs (1500 / 1000) <= 2)%R as Hr by (apply Rabs_le; lra).
  pose proof (to_double_near (1500 / 1000) 2 Hr ltac:(lra)) as Hd.
  set (x1 := to_double (1500 / 1000)) in *.
  assert (bpow (-23) = / 8388608)%R as N23 by (unfold bpow; simpl; lra).
  assert (bpow (-24) = / 16777216)%R as N24 by (unfold bpow; simpl; lra).
  rewrite (to_float_exact 0 12582912 x1).
  - change (0 - 23) with (-23). rewrite N23. lra.
  - lia.
  - change (0 + 1) with 1. rewrite bpow_0, bpow_1. lra.
  - change (0 - 23) with (-23). change (0 - 24) with (-24).
    rewrite N23, N24. unfold Rabs. destruct (Rcase_abs _); lra.
Qed.

End ExactTimes.

(** ** The shape of the motion *)

Lemma PI_lt_63_20 : (PI < 63 / 20)%R.
Proof.
  destruct (PI_2_3_7_ineq 1) as [_ H].
  unfold sum_f_R0, tg_alt, PI_2_3_7_tg, Ratan_seq in H. simpl in H.
  lra.
Qed.

(** Two arguments on the rising flank of the sine that are at least
    [pi / 1000] apart have sines at least [4 / 10^6] apart. *)
Lemma sin_gap (a b : R) :
  (- (PI / 2) <= a)%R -> (a + PI / 1000 <= b)%R -> (b <= PI / 2)%R ->
  (4 / 10 ^ 6 <= sin b - sin a)%R.
Proof.
  intros Ha Hab Hb. pose proof PI2_3_2 as Hpi3. pose proof PI_lt_13_4 as Hpi.
  rewrite form4.
  set (h := ((b - a) / 2)%R). set (m := ((b + a) / 2)%R).
  assert (PI / 2000 <= h <= PI / 2)%R as Hh by (unfold h; lra).
  assert (- (PI / 2 - h) <= m <= PI / 2 - h)%R as Hm by (unfold m, h; lra).
  assert (sin (PI / 2000) <= sin h)%R as Hs by (apply sin_incr_1; lra).
  pose proof (sin_small (PI / 2000) ltac:(lra)) as [Hlow _].
  assert (sin h <= cos m)%R as Hc.
  { rewrite <- (cos_shift h).
    destruct (Rle_dec 0 m) as [Hp | Hn].
    - apply cos_decr_1; lra.
    - rewrite <- (cos_neg m). apply cos_decr_1; lra. }
  assert (149 / 100000 <= sin h)%R as H1 by lra.
  nra.
Qed.

Section MotionShape.

Context {F : FloatOps} {HF : FloatOpsSound F} {HB : FloatOpsBinary F}.

(** The position computed [e] milliseconds after the start, against the
    sine expression at [e / 1000] seconds: during the first 1000 s, and more
    closely during the first period and a half. *)
Lemma position_first_1000s (e : Z) :
  0 <= e <= 1000000 ->
  (Rabs (position (to_float (to_double (IZR e / 1000)))
         - (2048 + 400 * sin (PI * (IZR e / 1000))))
   <= 101 / 1000)%R.
Proof.
  intros [Hlo Hhi].
  assert (0 <= e < 2 ^ 32) as He by lia.
  pose proof (position_error e He) as Hp.
  unfold CENTER_POS, AMPLITUDE, SPEED in Hp.
  replace (2 * PI * (1 / 2) * (IZR e / 1000))%R with (PI * (IZR e / 1000))%R in Hp by lra.
  apply IZR_le in Hlo, Hhi.
  eapply Rle_trans; [exact Hp |]. lra.
Qed.

Lemma position_first_period (e : Z) :
  0 <= e <= 1500 ->
  (Rabs (position (to_float (to_double (IZR e / 1000)))
         - (2048 + 400 * sin (PI * (IZR e / 1000))))
   <= 5 / 10 ^ 4)%R.
Proof.
  intros [Hlo Hhi].
  assert (0 <= e < 2 ^ 32) as He by lia.
  destruct (elapsed_error e He) as [Ht Hd].
  set (t := to_float (to_double (IZR e / 1000))) in *.
  pose proof (position_error_float t Ht) as Hp.
  apply IZR_le in Hlo, Hhi.
  pose proof PI2_3_2 as Hpi3. pose proof PI_lt_13_4 as Hpi.
  assert (Rabs (PI * t - PI * (IZR e / 1000)) <= 3 / 10 ^ 7)%R as Harg.
  { replace (PI * t - PI * (IZR e / 1000))%R with (PI * (t - IZR e / 1000))%R by ring.
    apply Rabs_le. split; nra. }
  pose proof (Rabs_bound _ _ (sin_near _ _ _ Harg)) as Hs.
  apply Rabs_le. lra.
Qed.

(** Positions a whole number of periods apart. *)
Lemma position_periods_apart (e1 e2 j : Z) :
  0 <= e1 < 2 ^ 32 -> 0 <= e2 < 2 ^ 32 -> 0 <= j -> e2 = e1 + 2000 * j ->
  (Rabs (position (to_float (to_double (IZR e2 / 1000)))
         - position (to_float (to_double (IZR e1 / 1000))))
   <= 2 / 1000 + (IZR e1 + IZR e2) / 1000 / 10000)%R.
Proof.
  intros R1 R2 Hj He.
  pose proof (position_error _ R1) as P1. pose proof (position_error _ R2) as P2.
  apply Rabs_bound in P1, P2.
  assert (sin (2 * PI * SPEED * (IZR e2 / 1000)) = sin (2 * PI * SPEED * (IZR e1 / 1000))) as Hs.
  { rewrite He, plus_IZR, mult_IZR. unfold SPEED.
    replace (2 * PI * (1 / 2) * ((IZR e1 + 2000 * IZR j) / 1000))%R
      with (2 * PI * (1 / 2) * (IZR e1 / 1000) + 2 * IZR j * PI)%R by field.
    apply sin_period_Z. exact Hj. }
  rewrite Hs in P2.
  apply Rabs_le. lra.
Qed.

Lemma goals_periods_apart (e1 e2 j : Z) :
  0 <= e1 -> 0 <= j -> e2 = e1 + 2000 * j -> e2 <= 1000000 ->
  Z.abs (goal_position (to_float (to_double (IZR e2 / 1000)))
         - goal_position (to_float (to_double (IZR e1 / 1000)))) <= 1.
Proof.
  intros H1 Hj He H2.
  assert (0 <= e1 < 2 ^ 32) as R1 by lia.
  assert (0 <= e2 < 2 ^ 32) as R2 by lia.
  pose proof (position_periods_apart e1 e2 j R1 R2 Hj He) as Hd.
  rewrite !goal_position_floor.
  set (p1 := position (to_float (to_double (IZR e1 / 1000)))) in *.
  set (p2 := position (to_float (to_double (IZR e2 / 1000)))) in *.
  pose proof (Zfloor_close p2 p1) as Hf.
  assert (0 <= IZR e1 <= IZR e2 /\ IZR e2 <= IZR 1000000)%R as [[E0 E1] E2].
  { repeat split; apply IZR_le; lia. }
  assert (Rabs (IZR (Zfloor p2 - Zfloor p1)) < IZR 2)%R as Hlt by lra.
  rewrite <- abs_IZR in Hlt. apply lt_IZR in Hlt. lia.
Qed.

End MotionShape.

(** * The statements of the specification *)

(** ** The motion function *)

(** C1 (as stated, refuted): a quarter of a second after the start the
    sketch sends 2330, the sine expression is about 2330.84, and the nearest
    integer, which the claim names, is 2331. *)
Lemma goal_position_not_rounded :
  goal_position (F := binary_ops) (elapsed_seconds (F := binary_ops) 250 0) = 2330
  /\ goal_position_spec CENTER_POS AMPLITUDE SPEED (250 / 1000) = 2331
  /\ goal_position (F := binary_ops) (elapsed_seconds (F := binary_ops) 250 0)
     <> goal_position_spec CENTER_POS AMPLITUDE SPEED (250 / 1000)
  /\ ~ nearest_integer
         (CENTER_POS + AMPLITUDE * sin (2 * PI * SPEED * (250 / 1000)))
         (goal_position (F := binary_ops) (elapsed_seconds (F := binary_ops) 250 0)).
Proof.
  pose proof (quarter_second_goal binary_ops binary_ops_accurate) as Hg.
  pose proof sqrt2_bounds as Hs.
  assert (CENTER_POS + AMPLITUDE * sin (2 * PI * SPEED * (250 / 1000))
          = 2048 + 200 * sqrt 2)%R as He.
  { unfold CENTER_POS, AMPLITUDE, SPEED.
    replace (2 * PI * (1 / 2) * (250 / 1000))%R with (PI * (1 / 4))%R by lra.
    rewrite sin_quarter. lra. }
  assert (goal_position_spec CENTER_POS AMPLITUDE SPEED (250 / 1000) = 2331) as Hr.
  { unfold goal_position_spec. rewrite He. unfold round_nearest.
    destruct (Rle_dec 0 (2048 + 200 * sqrt 2)) as [_ | Hn]; [| lra].
    apply Zfloor_eq. lra. }
  repeat split; try assumption.
  - rewrite Hg, Hr. discriminate.
  - unfold nearest_integer. rewrite Hg, He. intros Habs.
    match type of Habs with (Rabs ?a <= _)%R => pose proof (Rle_abs a) end.
    lra.
Qed.

(** C1 (amended): for every elapsed time the goal position is the position
    that the floating-point arithmetic computes, with its fractional part
    discarded: the greatest integer not above it, not the nearest one.  The
    computed position is within [0.001 + 0.0001 t] of the sine expression
    [center + amplitude * sin (2 pi frequency t)] at the true elapsed time
    [t] in seconds, so the goal position lies between the integer parts of
    the expression less that bound and of the expression plus that bound. *)
Theorem goal_position_truncates (F : FloatOps) (HF : FloatOpsSound F)
    (HB : FloatOpsBinary F) :
  (forall t : R,
      (IZR (goal_position t) <= position t < IZR (goal_position t) + 1)%R)
  /\ (forall now start : Z,
        (Rabs (position (elapsed_seconds now start)
               - (CENTER_POS
                  + AMPLITUDE
                    * sin (2 * PI * SPEED * (IZR (ulong (now - start)) / 1000))))
         <= 1 / 1000 + IZR (ulong (now - start)) / 1000 / 10000)%R
        /\ Zfloor (CENTER_POS
                   + AMPLITUDE
                     * sin (2 * PI * SPEED * (IZR (ulong (now - start)) / 1000))
                   - (1 / 1000 + IZR (ulong (now - start)) / 1000 / 10000))
           <= goal_position (elapsed_seconds now start)
           <= Zfloor (CENTER_POS
                      + AMPLITUDE
                        * sin (2 * PI * SPEED * (IZR (ulong (now - start)) / 1000))
                      + (1 / 1000 + IZR (ulong (now - start)) / 1000 / 10000))).
Proof.
  split.
  - intros t. rewrite goal_position_floor. apply Zfloor_bound.
  - intros now start.
    pose proof (position_error (ulong (now - start)) (ulong_range _)) as Hp.
    split; [exact Hp |].
    rewrite goal_position_floor. apply Rabs_bound in Hp.
    unfold elapsed_seconds.
    split; apply Zfloor_le; lra.
Qed.

Lemma goal_position_truncates_witness :
  (forall t : R,
      (IZR (goal_position (F := binary_ops) t) <= position (F := binary_ops) t
       < IZR (goal_position (F := binary_ops) t) + 1)%R)
  /\ (forall now start : Z,
        (Rabs (position (F := binary_ops) (elapsed_seconds (F := binary_ops) now start)
               - (CENTER_POS
                  + AMPLITUDE
                    * sin (2 * PI * SPEED * (IZR (ulong (now - start)) / 1000))))
         <= 1 / 1000 + IZR (ulong (now - start)) / 1000 / 10000)%R
        /\ Zfloor (CENTER_POS
                   + AMPLITUDE
                     * sin (2 * PI * SPEED * (IZR (ulong (now - start)) / 1000))
                   - (1 / 1000 + IZR (ulong (now - start)) / 1000 / 10000))
           <= goal_position (F := binary_ops) (elapsed_seconds (F := binary_ops) now start)
           <= Zfloor (CENTER_POS
                      + AMPLITUDE
                        * sin (2 * PI * SPEED * (IZR (ulong (now - start)) / 1000))
                      + (1 / 1000 + IZR (ulong (now - start)) / 1000 / 10000))).
Proof.
  exact (goal_position_truncates binary_ops binary_ops_sound binary_ops_binary).
Defined.

(** C2: for every elapsed time [t], and whatever the floating-point
    rounding does, the goal position lies between [center - amplitude] and
    [center + amplitude], that is between 1648 and 2448. *)
Theorem goal_position_range (F : FloatOps) (HF : FloatOpsSound F) (t : R) :
  (CENTER_POS - AMPLITUDE <= IZR (goal_position t) <= CENTER_POS + AMPLITUDE)%R
  /\ 1648 <= goal_position t <= 2448.
Proof.
  assert (1648 <= goal_position t <= 2448) as H.
  { unfold goal_position. apply int_of_float_between; [lia |].
    apply position_range. }
  split; [| exact H].
  unfold CENTER_POS, AMPLITUDE. destruct H as [Hl Hh].
  apply IZR_le in Hl, Hh. lra.
Qed.

Lemma goal_position_range_witness :
  (CENTER_POS - AMPLITUDE <= IZR (goal_position (F := binary_ops) (1 / 4))
   <= CENTER_POS + AMPLITUDE)%R
  /\ 1648 <= goal_position (F := binary_ops) (1 / 4) <= 2448.
Proof. exact (goal_position_range binary_ops binary_ops_sound (1 / 4)). Defined.

(** C3: with center 2048, amplitude 400 and frequency 0.5 Hz the goal
    position is 2048 at 0 s, 2448 at 0.5 s, 2048 at 1 s, 1648 at 1.5 s, and
    it is the center at every integer multiple of [0.5 / frequency_hz] that
    the elapsed time can take (it stays below 4294968 s).  These are the
    values the sketch sends 500 ms, 1500 ms and any whole number of seconds
    after the start. *)
Theorem goal_position_values (F : FloatOps) (HF : FloatOpsSound F)
    (HB : FloatOpsBinary F) :
  goal_position 0 = 2048
  /\ goal_position (1 / 2) = 2448
  /\ goal_position 1 = 2048
  /\ goal_position (3 / 2) = 1648
  /\ (forall k : Z,
        0 <= k <= 4294967 -> goal_position (IZR k * (1 / 2 / SPEED)) = 2048)
  /\ (forall now start : Z,
        ulong (now - start) = 500 ->
        goal_position (elapsed_seconds now start) = 2448)
  /\ (forall now start : Z,
        ulong (now - start) = 1500 ->
        goal_position (elapsed_seconds now start) = 1648)
  /\ (forall now start k : Z,
        ulong (now - start) = 1000 * k ->
        goal_position (elapsed_seconds now start) = 2048).
Proof.
  assert (forall k : Z, 0 <= k <= 4294967 -> goal_position (IZR k) = 2048) as Hk.
  { intros k [Hlo Hhi]. unfold goal_position.
    rewrite (position_at_integer (IZR k) 2048).
    - apply int_of_float_IZR.
    - apply IZR_le in Hlo, Hhi. lra.
    - lia.
    - rewrite (sin_eq_0_1 (PI * IZR k)) by (exists k; ring). lra. }
  assert (goal_position (1 / 2) = 2448) as H1.
  { unfold goal_position. rewrite (position_at_integer (1 / 2) 2448).
    - apply int_of_float_IZR.
    - lra.
    - lia.
    - replace (PI * (1 / 2))%R with (PI / 2)%R by lra. rewrite sin_PI2. lra. }
  assert (goal_position (3 / 2) = 1648) as H3.
  { unfold goal_position. rewrite (position_at_integer (3 / 2) 1648).
    - apply int_of_float_IZR.
    - lra.
    - lia.
    - replace (PI * (3 / 2))%R with (3 * (PI / 2))%R by lra. rewrite sin_3PI2. lra. }
  split; [apply (Hk 0); lia |].
  split; [exact H1 |].
  split; [apply (Hk 1); lia |].
  split; [exact H3 |].
  split; [| split; [| split]].
  - intros k Hk'. unfold SPEED.
    replace (IZR k * (1 / 2 / (1 / 2)))%R with (IZR k) by (field; lra).
    apply Hk. exact Hk'.
  - intros now start He. rewrite (elapsed_half_second now start He). exact H1.
  - intros now start He. rewrite (elapsed_three_halves now start He). exact H3.
  - intros now start k He. rewrite (elapsed_whole_seconds now start k He).
    pose proof (ulong_range (now - start)) as Hr. unfold ULONG_BITS in Hr.
    apply Hk. lia.
Qed.

Lemma goal_position_values_witness :
  goal_position (F := binary_ops) 0 = 2048
  /\ goal_position (F := binary_ops) (1 / 2) = 2448
  /\ goal_position (F := binary_ops) 1 = 2048
  /\ goal_position (F := binary_ops) (3 / 2) = 1648
  /\ (forall k : Z,
        0 <= k <= 4294967 ->
        goal_position (F := binary_ops) (IZR k * (1 / 2 / SPEED)) = 2048)
  /\ (forall now start : Z,
        ulong (now - start) = 500 ->
        goal_position (F := binary_ops) (elapsed_seconds (F := binary_ops) now start)
        = 2448)
  /\ (forall now start : Z,
        ulong (now - start) = 1500 ->
        goal_position (F := binary_ops) (elapsed_seconds (F := binary_ops) now start)
        = 1648)
  /\ (forall now start k : Z,
        ulong (now - start) = 1000 * k ->
        goal_position (F := binary_ops) (elapsed_seconds (F := binary_ops) now start)
        = 2048).
Proof.
  exact (goal_position_values binary_ops binary_ops_sound binary_ops_binary).
Defined.

(** C4 (as stated, refuted): 16383.001 s after the start the sketch sends
    2046 and one period later, 16385.001 s after the start, it sends 2045:
    the elapsed time is stored in a [float], whose steps are 1/1024 s wide
    below 16384 s and 1/512 s wide above. *)
Lemma goal_position_not_periodic :
  goal_position (F := binary_ops) (elapsed_seconds (F := binary_ops) 16383001 0) = 2046
  /\ goal_position (F := binary_ops) (elapsed_seconds (F := binary_ops) 16385001 0) = 2045
  /\ (IZR 16385001 / 1000 = IZR 16383001 / 1000 + 1 / SPEED)%R
  /\ goal_position (F := binary_ops) (elapsed_seconds (F := binary_ops) 16385001 0)
     <> goal_position (F := binary_ops) (elapsed_seconds (F := binary_ops) 16383001 0).
Proof.
  destruct (@late_period_goals binary_ops binary_ops_sound binary_ops_binary) as [H1 H2].
  repeat split; try assumption.
  - unfold SPEED. lra.
  - rewrite H1, H2. discriminate.
Qed.

(** C4 (amended): the goal position is periodic with period
    [1 / frequency_hz] (2000 ms) up to the rounding of the stored elapsed
    time: for two elapsed times a whole number of periods apart the goal
    positions differ by less than [1.002 + (t1 + t2) / 10000], with [t1] and
    [t2] in seconds, and by one unit at most while no more than 1000 s have
    elapsed. *)
Theorem goal_position_periodic (F : FloatOps) (HF : FloatOpsSound F)
    (HB : FloatOpsBinary F) (start now1 now2 j : Z) :
  0 <= j ->
  ulong (now2 - start) = ulong (now1 - start) + 2000 * j ->
  (Rabs (IZR (goal_position (elapsed_seconds now2 start)
              - goal_position (elapsed_seconds now1 start)))
   < 1 + 2 / 1000
     + (IZR (ulong (now1 - start)) + IZR (ulong (now2 - start))) / 1000 / 10000)%R
  /\ (ulong (now2 - start) <= 1000000 ->
      Z.abs (goal_position (elapsed_seconds now2 start)
             - goal_position (elapsed_seconds now1 start)) <= 1).
Proof.
  intros Hj He.
  pose proof (ulong_range (now1 - start)) as R1.
  pose proof (ulong_range (now2 - start)) as R2.
  split.
  - pose proof (position_periods_apart _ _ j R1 R2 Hj He) as Hd.
    rewrite !goal_position_floor. unfold elapsed_seconds.
    match goal with
    | |- (Rabs (IZR (Zfloor ?p2 - Zfloor ?p1)) < _)%R =>
        pose proof (Zfloor_close p2 p1) as Hf
    end.
    lra.
  - intros Hsmall. unfold elapsed_seconds.
    apply (goals_periods_apart _ _ j); lia.
Qed.

Lemma goal_position_periodic_witness :
  (Rabs (IZR (goal_position (F := binary_ops) (elapsed_seconds (F := binary_ops) 5219 0)
              - goal_position (F := binary_ops) (elapsed_seconds (F := binary_ops) 3219 0)))
   < 1 + 2 / 1000 + (IZR (ulong (3219 - 0)) + IZR (ulong (5219 - 0))) / 1000 / 10000)%R
  /\ Z.abs (goal_position (F := binary_ops) (elapsed_seconds (F := binary_ops) 5219 0)
            - goal_position (F := binary_ops) (elapsed_seconds (F := binary_ops) 3219 0))
     <= 1.
Proof.
  destruct (goal_position_periodic binary_ops binary_ops_sound binary_ops_binary
              0 3219 5219 1) as [Hreal Hint].
  - lia.
  - reflexivity.
  - split; [exact Hreal |]. apply Hint. vm_compute. congruence.
Defined.

(** ** Start-up and loop *)

(** ** Reading a trace: how the readers distribute over [++] *)

Lemma written_app (l1 l2 : list event) : written (l1 ++ l2) = written l1 ++ written l2.
Proof.
  induction l1 as [| e l1 IH]; simpl; [reflexivity |].
  destruct e; simpl; rewrite IH; reflexivity.
Qed.

Lemma printed_app (l1 l2 : list event) : printed (l1 ++ l2) = printed l1 ++ printed l2.
Proof.
  induction l1 as [| e l1 IH]; simpl; [reflexivity |].
  destruct e; simpl; rewrite IH; reflexivity.
Qed.

Lemma count_app (p : event -> bool) (l1 l2 : list event) :
  count p (l1 ++ l2) = (count p l1 + count p l2)%nat.
Proof. unfold count. rewrite filter_app, length_app. reflexivity. Qed.

(** ** One call of [setup] or of [loop] *)

Section Calls.

Context {F : FloatOps}.
Variable w : world.

Lemma setup_silent (s : state) :
  ping w MOTOR_ID = false -> setup w s = (Spins, s, setup_failed_events).
Proof.
  intros Hping. unfold setup, bind, emit, ping_motor, ret.
  rewrite Hping. reflexivity.
Qed.

Lemma setup_alive (s : state) :
  ping w MOTOR_ID = true -> setup w s = (Returns, s, setup_events).
Proof.
  intros Hping. unfold setup, bind, emit, ping_motor, ret.
  rewrite Hping. reflexivity.
Qed.

(** The first call: [startTime] is initialised from one reading of the
    counter, the elapsed time is taken from the next one. *)
Lemma loop_first (s : state) :
  startTime s = None ->
  loop w s =
    (tt,
     {| startTime := Some (ulong (clock w (reads s)));
        reads := N.succ (N.succ (reads s)) |},
     loop_events
       (elapsed_seconds (ulong (clock w (N.succ (reads s))))
                        (ulong (clock w (reads s))))).
Proof.
  intros Hs. destruct s as [st rd]. simpl in Hs. subst st. reflexivity.
Qed.

(** Every later call: [startTime] is read, not written. *)
Lemma loop_later (s : state) (t0 : Z) :
  startTime s = Some t0 ->
  loop w s =
    (tt,
     {| startTime := Some t0; reads := N.succ (reads s) |},
     loop_events (elapsed_seconds (ulong (clock w (reads s))) t0)).
Proof.
  intros Hs. destruct s as [st rd]. simpl in Hs. subst st. reflexivity.
Qed.

Lemma written_loop_events (t : R) : written (loop_events t) = [goal_position t].
Proof. reflexivity. Qed.

Lemma printed_loop_events (t : R) : printed (loop_events t) = [goal_position t].
Proof. reflexivity. Qed.

Lemma loop_events_of (s : state) :
  exists t : R, events_of (loop w s) = loop_events t.
Proof.
  destruct (startTime s) as [t0 |] eqn:Hs.
  - rewrite (loop_later s t0 Hs). eexists. reflexivity.
  - rewrite (loop_first s Hs). eexists. reflexivity.
Qed.

(** ** The run *)

Lemma exec_succ (n : N) : exec w (N.succ n) = step w (exec w n).
Proof. unfold exec. apply N.iter_succ. Qed.

Lemma run_events_succ (n : N) :
  run_events w (N.succ n) = run_events w n ++ loop_events (iteration_t w n).
Proof. unfold run_events. rewrite N.peano_rect_succ. reflexivity. Qed.

(** A silent motor: after [setup] nothing changes any more. *)
Lemma exec_silent (n : N) :
  ping w MOTOR_ID = false ->
  exec w (N.succ n) =
    {| at_phase := Halted; memory := boot_state; output := setup_failed_events |}.
Proof.
  intros Hping. induction n as [| n IH] using N.peano_ind.
  - rewrite exec_succ. unfold exec, step. simpl.
    rewrite (setup_silent boot_state Hping). reflexivity.
  - rewrite exec_succ, IH. reflexivity.
Qed.

(** A motor that answers: after [setup] and [n] calls of [loop]. *)
Lemma exec_alive (n : N) :
  ping w MOTOR_ID = true ->
  exec w (N.succ n) =
    {| at_phase := Looping;
       memory := memory_after w n;
       output := setup_events ++ run_events w n |}.
Proof.
  intros Hping. induction n as [| n IH] using N.peano_ind.
  - rewrite exec_succ. unfold exec, step. simpl.
    rewrite (setup_alive boot_state Hping). reflexivity.
  - rewrite exec_succ, IH. unfold step. simpl at_phase. cbv iota.
    simpl memory. simpl output.
    rewrite run_events_succ, app_assoc.
    destruct n as [| p] using N.peano_ind.
    + rewrite (loop_first (memory_after w 0)) by reflexivity. reflexivity.
    + clear IHp.
      rewrite (loop_later (memory_after w (N.succ p)) (ulong (clock w 0%N))).
      * unfold events_of, state_of, iteration_t. simpl snd. simpl fst.
        assert (forall m, memory_after w (N.succ m)
                  = {| startTime := Some (ulong (clock w 0%N));
                       reads := N.succ (N.succ m) |}) as Hm.
        { intros m. unfold memory_after. destruct (N.succ m) eqn:E; [lia | reflexivity]. }
        rewrite !Hm. reflexivity.
      * unfold memory_after. destruct (N.succ p) eqn:E; [lia | reflexivity].
Qed.

Lemma output_alive (n : N) :
  ping w MOTOR_ID = true ->
  output (exec w (N.succ n)) = setup_events ++ run_events w n.
Proof. intros Hping. rewrite (exec_alive n Hping). reflexivity. Qed.

Lemma memory_alive (n : N) :
  ping w MOTOR_ID = true -> memory (exec w (N.succ n)) = memory_after w n.
Proof. intros Hping. rewrite (exec_alive n Hping). reflexivity. Qed.

End Calls.

(** ** What a run writes and prints *)

Section Runs.

Context {F : FloatOps}.
Variable w : world.

Lemma count_run_events (p : event -> bool) (n : N) :
  (forall t, count p (loop_events t) = 0%nat) -> count p (run_events w n) = 0%nat.
Proof.
  intros Hp. induction n as [| n IH] using N.peano_ind; [reflexivity |].
  rewrite run_events_succ, count_app, IH, Hp. reflexivity.
Qed.

Lemma goal_writes_run_events (n : N) :
  count is_goal_write (run_events w n) = N.to_nat n.
Proof.
  induction n as [| n IH] using N.peano_ind; [reflexivity |].
  rewrite run_events_succ, count_app, IH, N2Nat.inj_succ.
  change (count is_goal_write (loop_events (iteration_t w n))) with 1%nat. lia.
Qed.

Lemma printed_run_events (n : N) :
  printed (run_events w n) = written (run_events w n).
Proof.
  induction n as [| n IH] using N.peano_ind; [reflexivity |].
  rewrite run_events_succ, printed_app, written_app, IH. reflexivity.
Qed.

End Runs.

(** C5: when the motor does not answer the ping of [setup], the sketch
    prints its diagnostic message and halts for good: at every later step it
    is halted, its output ends with the message and never grows, and it
    holds no torque-on, no operating-mode and no goal-position call. *)
Theorem ping_failure_halts (F : FloatOps) (w : world) (n : N) :
  ping w MOTOR_ID = false ->
  at_phase (exec w (N.succ n)) = Halted
  /\ output (exec w (N.succ n)) = setup_failed_events
  /\ (exists before,
        output (exec w (N.succ n))
        = before ++ [Serial_println "Motor not responding. Check wiring and ID."%string])
  /\ count is_torqueOn (output (exec w (N.succ n))) = 0%nat
  /\ count is_setOperatingMode (output (exec w (N.succ n))) = 0%nat
  /\ count is_goal_write (output (exec w (N.succ n))) = 0%nat
  /\ step w (exec w (N.succ n)) = exec w (N.succ n).
Proof.
  intros Hping. rewrite (exec_silent w n Hping). simpl.
  repeat split; try reflexivity.
  eexists (firstn 5 setup_failed_events). reflexivity.
Qed.

Lemma ping_failure_halts_witness :
  at_phase (exec (F := binary_ops) silent_world 6) = Halted
  /\ output (exec (F := binary_ops) silent_world 6) = setup_failed_events
  /\ (exists before,
        output (exec (F := binary_ops) silent_world 6)
        = before ++ [Serial_println "Motor not responding. Check wiring and ID."%string])
  /\ count is_torqueOn (output (exec (F := binary_ops) silent_world 6)) = 0%nat
  /\ count is_setOperatingMode (output (exec (F := binary_ops) silent_world 6)) = 0%nat
  /\ count is_goal_write (output (exec (F := binary_ops) silent_world 6)) = 0%nat
  /\ step silent_world (exec (F := binary_ops) silent_world 6)
     = exec (F := binary_ops) silent_world 6.
Proof. exact (ping_failure_halts binary_ops silent_world 5 eq_refl). Defined.

(** C8: when the ping is answered, the start-up runs in this order: the
    serial ports are configured, then the motor is put in position mode, then
    torque is enabled; no goal position is written before that, and the [n]
    goal positions of the [n] calls of [loop] all follow. *)
Theorem startup_order (F : FloatOps) (w : world) (n : N) :
  ping w MOTOR_ID = true ->
  at_phase (exec w (N.succ n)) = Looping
  /\ exists l1 l2 l3,
       output (exec w (N.succ n))
       = [Serial_begin 115200;
          DXL_SERIAL_begin BAUDRATE SERIAL_8N1 DXL_RX_PIN DXL_TX_PIN]
         ++ l1 ++ [dxl_setOperatingMode MOTOR_ID OP_POSITION]
         ++ l2 ++ [dxl_torqueOn MOTOR_ID]
         ++ l3 ++ run_events w n
       /\ count is_goal_write (l1 ++ l2 ++ l3) = 0%nat
       /\ count is_goal_write (run_events w n) = N.to_nat n.
Proof.
  intros Hping. rewrite (exec_alive w n Hping). simpl at_phase. simpl output.
  split; [reflexivity |].
  exists [dxl_begin BAUDRATE; dxl_setPortProtocolVersion DXL_PROTOCOL_VERSION;
          dxl_ping MOTOR_ID; dxl_torqueOff MOTOR_ID].
  exists [].
  exists [dxl_writeControlTableItem PROFILE_VELOCITY MOTOR_ID 400;
          dxl_writeControlTableItem PROFILE_ACCELERATION MOTOR_ID 50;
          Serial_println "Sine wave motion initialized."%string].
  repeat split; try reflexivity.
  apply goal_writes_run_events.
Qed.

Lemma startup_order_witness :
  at_phase (exec (F := binary_ops) steady_world 4) = Looping
  /\ exists l1 l2 l3,
       output (exec (F := binary_ops) steady_world 4)
       = [Serial_begin 115200;
          DXL_SERIAL_begin BAUDRATE SERIAL_8N1 DXL_RX_PIN DXL_TX_PIN]
         ++ l1 ++ [dxl_setOperatingMode MOTOR_ID OP_POSITION]
         ++ l2 ++ [dxl_torqueOn MOTOR_ID]
         ++ l3 ++ run_events (F := binary_ops) steady_world 3
       /\ count is_goal_write (l1 ++ l2 ++ l3) = 0%nat
       /\ count is_goal_write (run_events (F := binary_ops) steady_world 3) = 3%nat.
Proof. exact (startup_order binary_ops steady_world 3 eq_refl). Defined.

(** C9: in every call of [loop] the integer printed on the debug port is
    the integer written to the motor as goal position, so over any run the
    printed integers are the written goal positions, in the same order. *)
Theorem printed_is_written (F : FloatOps) (w : world) :
  (forall s : state, exists g : Z,
      events_of (loop w s)
      = [dxl_setGoalPosition MOTOR_ID g; Serial_print "Goal: "%string;
         Serial_println_int g; delay 20])
  /\ forall n : N, printed (output (exec w n)) = written (output (exec w n)).
Proof.
  split.
  - intros s. destruct (loop_events_of w s) as [t Ht].
    exists (goal_position t). rewrite Ht. reflexivity.
  - intros n. destruct n as [| n] using N.peano_ind; [reflexivity |]. clear IHn.
    destruct (ping w MOTOR_ID) eqn:Hping.
    + rewrite (output_alive w n Hping).
      rewrite printed_app, written_app, printed_run_events. reflexivity.
    + rewrite (exec_silent w n Hping). reflexivity.
Qed.

(** C10: when the ping is answered, [setup] switches torque off before it
    sets the operating mode and writes PROFILE_VELOCITY = 400 and
    PROFILE_ACCELERATION = 50 before any call of [loop]; however long the
    run, each of the two is written exactly once. *)
Theorem setup_profile_writes (F : FloatOps) (w : world) (n : N) :
  ping w MOTOR_ID = true ->
  precedes (dxl_torqueOff MOTOR_ID) (dxl_setOperatingMode MOTOR_ID OP_POSITION)
    (output (exec w 1))
  /\ In (dxl_writeControlTableItem PROFILE_VELOCITY MOTOR_ID 400) (output (exec w 1))
  /\ In (dxl_writeControlTableItem PROFILE_ACCELERATION MOTOR_ID 50) (output (exec w 1))
  /\ count is_goal_write (output (exec w 1)) = 0%nat
  /\ count (is_write_of PROFILE_VELOCITY) (output (exec w (N.succ n))) = 1%nat
  /\ count (is_write_of PROFILE_ACCELERATION) (output (exec w (N.succ n))) = 1%nat.
Proof.
  intros Hping.
  change 1%N with (N.succ 0). rewrite !(output_alive w _ Hping).
  change (run_events w 0) with (@nil event). rewrite app_nil_r.
  repeat split.
  - exists (firstn 5 setup_events), [], (skipn 7 setup_events). reflexivity.
  - simpl. tauto.
  - simpl. tauto.
  - rewrite count_app, count_run_events by reflexivity. reflexivity.
  - rewrite count_app, count_run_events by reflexivity. reflexivity.
Qed.

Lemma setup_profile_writes_witness :
  precedes (dxl_torqueOff MOTOR_ID) (dxl_setOperatingMode MOTOR_ID OP_POSITION)
    (output (exec (F := binary_ops) steady_world 1))
  /\ In (dxl_writeControlTableItem PROFILE_VELOCITY MOTOR_ID 400)
       (output (exec (F := binary_ops) steady_world 1))
  /\ In (dxl_writeControlTableItem PROFILE_ACCELERATION MOTOR_ID 50)
       (output (exec (F := binary_ops) steady_world 1))
  /\ count is_goal_write (output (exec (F := binary_ops) steady_world 1)) = 0%nat
  /\ count (is_write_of PROFILE_VELOCITY)
       (output (exec (F := binary_ops) steady_world 8)) = 1%nat
  /\ count (is_write_of PROFILE_ACCELERATION)
       (output (exec (F := binary_ops) steady_world 8)) = 1%nat.
Proof. exact (setup_profile_writes binary_ops steady_world 7 eq_refl). Defined.

(** ** The elapsed time over a run *)

(** C6 (as stated, refuted): with one reading every 20 ms the call of
    [loop] that reads the counter at 4294967280 ms computes an elapsed time
    of more than 4294967 s, and the next call, which reads it at
    4294967300 ms, just past [2^32], computes less than 1 s. *)
Lemma elapsed_time_wraps :
  clock steady_world 214748364 = 4294967280
  /\ clock steady_world 214748365 = 4294967300
  /\ (4294967 <= iteration_t (F := binary_ops) steady_world 214748363)%R
  /\ (iteration_t (F := binary_ops) steady_world 214748364 <= 1)%R
  /\ (iteration_t (F := binary_ops) steady_world 214748364
      < iteration_t (F := binary_ops) steady_world 214748363)%R.
Proof.
  destruct (elapsed_time_wraps_rounded binary_ops binary_ops_sound) as [H1 H2].
  repeat split; try reflexivity; try assumption.
  lra.
Qed.

(** C6 (amended): from one call of [loop] to the next the elapsed time does
    not decrease, provided the counter has not gone back and less than
    [2^32] ms have passed since the start time was taken. *)
Theorem elapsed_time_monotone (F : FloatOps) (HF : FloatOpsSound F)
    (w : world) (k : N) :
  clock w 0%N <= clock w (N.succ k) ->
  clock w (N.succ k) <= clock w (N.succ (N.succ k)) ->
  clock w (N.succ (N.succ k)) - clock w 0%N < 2 ^ ULONG_BITS ->
  (iteration_t w k <= iteration_t w (N.succ k))%R.
Proof.
  intros H0 H1 H2.
  rewrite !iteration_t_before_wrap by lia.
  apply to_float_mono, to_double_mono.
  apply Rmult_le_compat_r; [lra |].
  apply IZR_le. lia.
Qed.

Lemma elapsed_time_monotone_witness :
  (iteration_t (F := binary_ops) steady_world 3
   <= iteration_t (F := binary_ops) steady_world (N.succ 3))%R.
Proof.
  apply (elapsed_time_monotone binary_ops binary_ops_sound steady_world 3);
    vm_compute; congruence.
Defined.

(** C7 (as stated, refuted): when the counter moves from 100 ms to 101 ms
    between the two readings of the first call of [loop], that call computes
    an elapsed time that is not 0 and sends 2049, not the center 2048. *)
Lemma first_iteration_not_at_center :
  ping ticking_world MOTOR_ID = true
  /\ written (output (exec (F := binary_ops) ticking_world 2)) = [2049]
  /\ iteration_t (F := binary_ops) ticking_world 0 <> 0%R
  /\ written (output (exec (F := binary_ops) ticking_world 2)) <> [2048].
Proof.
  assert (written (output (exec (F := binary_ops) ticking_world 2)) = [2049]) as Hw.
  { change 2%N with (N.succ 1).
    rewrite (output_alive ticking_world 1 eq_refl), written_app.
    change 1%N with (N.succ 0) at 1.
    rewrite run_events_succ, written_app, written_loop_events.
    simpl. f_equal.
    exact (one_millisecond_goal binary_ops binary_ops_accurate). }
  repeat split; try assumption.
  - unfold iteration_t, elapsed_seconds.
    replace (ulong (ulong (clock ticking_world (N.succ 0))
                    - ulong (clock ticking_world 0)))
      with 1 by (vm_compute; reflexivity).
    pose proof (seconds_close (F := binary_ops) (1 / 1000)) as Hc.
    assert (1 / 1000 <= 1 / 1000 <= 1)%R as Hr by lra.
    specialize (Hc Hr). lra.
  - rewrite Hw. discriminate.
Qed.

(** C7 (amended): [startTime] is unassigned after [setup], which does not
    read the counter; the first call of [loop] assigns it the first reading,
    and no call changes it afterwards; every call measures its elapsed time
    from that reading.  The first call takes a second reading, and when the
    counter has not moved between the two, its elapsed time is 0 and its
    goal position the center. *)
Theorem startTime_set_once (F : FloatOps) (HF : FloatOpsSound F) (w : world) :
  ping w MOTOR_ID = true ->
  memory (exec w 1) = boot_state
  /\ (forall n : N,
        startTime (memory (exec w (N.succ (N.succ n)))) = Some (ulong (clock w 0%N)))
  /\ (forall (s : state) (t0 : Z),
        startTime s = Some t0 -> startTime (state_of (loop w s)) = Some t0)
  /\ (forall k : N,
        output (exec w (N.succ (N.succ k)))
        = output (exec w (N.succ k)) ++ loop_events (iteration_t w k))
  /\ (clock w 1%N = clock w 0%N ->
        iteration_t w 0 = 0%R /\ goal_position (iteration_t w 0) = 2048).
Proof.
  intros Hping. repeat split.
  - change 1%N with (N.succ 0). rewrite (memory_alive w 0 Hping). reflexivity.
  - intros n. rewrite (memory_alive w _ Hping).
    unfold memory_after. destruct (N.succ n) eqn:E; [lia | reflexivity].
  - intros s t0 Hs. rewrite (loop_later w s t0 Hs). reflexivity.
  - intros k. rewrite !(output_alive w _ Hping), run_events_succ.
    apply app_assoc.
  - unfold iteration_t. change (N.succ 0) with 1%N. rewrite H.
    apply elapsed_seconds_same.
  - unfold iteration_t. change (N.succ 0) with 1%N. rewrite H.
    rewrite elapsed_seconds_same. apply goal_position_0.
Qed.

Lemma startTime_set_once_witness :
  memory (exec (F := binary_ops) prompt_world 1) = boot_state
  /\ startTime (memory (exec (F := binary_ops) prompt_world 5))
     = Some (ulong (clock prompt_world 0%N))
  /\ output (exec (F := binary_ops) prompt_world 5)
     = output (exec (F := binary_ops) prompt_world 4)
       ++ loop_events (iteration_t (F := binary_ops) prompt_world 3)
  /\ iteration_t (F := binary_ops) prompt_world 0 = 0%R
  /\ goal_position (F := binary_ops) (iteration_t (F := binary_ops) prompt_world 0)
     = 2048.
Proof.
  destruct (startTime_set_once binary_ops binary_ops_sound prompt_world eq_refl)
    as (Hboot & Hstart & _ & Hout & Hfirst).
  split; [exact Hboot |].
  split; [exact (Hstart 3%N) |].
  split; [exact (Hout 3%N) |].
  exact (Hfirst eq_refl).
Defined.

(** * Further properties of the sketch *)

(** ** Elapsed time and the counter *)

(** X3: the elapsed time is the true time between the two readings, divided
    by 1000 and rounded, as long as that time is below [2^32] ms: a wrap of
    the counter between the two readings does no harm. *)
Theorem elapsed_seconds_true_time (F : FloatOps) (start now : Z) :
  0 <= now - start < 2 ^ ULONG_BITS ->
  elapsed_seconds (ulong now) (ulong start)
  = to_float (to_double (IZR (now - start) / 1000)).
Proof.
  intros Hd. unfold elapsed_seconds.
  rewrite ulong_difference by exact Hd. reflexivity.
Qed.

Lemma elapsed_seconds_true_time_witness :
  elapsed_seconds (F := binary_ops) (ulong (2 ^ 32 + 5)) (ulong (2 ^ 32 - 10))
  = @to_float binary_ops
      (@to_double binary_ops (IZR (2 ^ 32 + 5 - (2 ^ 32 - 10)) / 1000)).
Proof.
  apply (elapsed_seconds_true_time binary_ops (2 ^ 32 - 10) (2 ^ 32 + 5)).
  vm_compute. split; congruence.
Defined.

(** X5: the elapsed time is never negative and stays below 4294968 s, whatever
    the two readings are. *)
Theorem elapsed_seconds_bounds (F : FloatOps) (HF : FloatOpsSound F) (now start : Z) :
  (0 <= elapsed_seconds now start <= 4294968)%R.
Proof.
  unfold elapsed_seconds.
  pose proof (ulong_range (now - start)) as [Hlo Hhi].
  apply IZR_le in Hlo. apply IZR_lt in Hhi.
  change (2 ^ ULONG_BITS) with 4294967296 in Hhi.
  split.
  - rewrite <- (to_float_int 0) by (simpl; lia). apply to_float_mono.
    rewrite <- (to_double_int 0) by (simpl; lia). apply to_double_mono. lra.
  - rewrite <- (to_float_int 4294968) by (simpl; lia). apply to_float_mono.
    rewrite <- (to_double_int 4294968) by (simpl; lia). apply to_double_mono. lra.
Qed.

Lemma elapsed_seconds_bounds_witness :
  (0 <= elapsed_seconds (F := binary_ops) 5 4294967290 <= 4294968)%R.
Proof. exact (elapsed_seconds_bounds binary_ops binary_ops_sound 5 4294967290). Defined.

(** ** Whole runs *)

Section RunFacts.

Context {F : FloatOps}.
Variable w : world.

Lemma written_run_events_length (n : N) :
  List.length (written (run_events w n)) = N.to_nat n.
Proof.
  induction n as [| n IH] using N.peano_ind; [reflexivity |].
  rewrite run_events_succ, written_app, length_app, IH, written_loop_events, N2Nat.inj_succ.
  simpl. lia.
Qed.

Lemma written_run_events_nth (n k : N) :
  (k < n)%N ->
  nth_error (written (run_events w n)) (N.to_nat k)
  = Some (goal_position (iteration_t w k)).
Proof.
  induction n as [| n IH] using N.peano_ind; [lia |].
  intros Hk. rewrite run_events_succ, written_app, written_loop_events.
  destruct (N.eq_dec k n) as [-> | Hne].
  - rewrite nth_error_app2 by (rewrite written_run_events_length; lia).
    rewrite written_run_events_length, Nat.sub_diag. reflexivity.
  - rewrite nth_error_app1 by (rewrite written_run_events_length; lia).
    apply IH. lia.
Qed.

Lemma written_run_events_range {HF : FloatOpsSound F} (n : N) :
  Forall (fun g => 1648 <= g <= 2448) (written (run_events w n)).
Proof.
  induction n as [| n IH] using N.peano_ind; [constructor |].
  rewrite run_events_succ, written_app, written_loop_events.
  apply Forall_app. split; [exact IH |].
  constructor; [| constructor].
  unfold goal_position. apply int_of_float_between; [lia |]. apply position_range.
Qed.

End RunFacts.

(** X1: every goal position that a run writes to the motor, however long the
    run and whatever the counter reads, lies between 1648 and 2448. *)
Theorem run_goals_in_range (F : FloatOps) (HF : FloatOpsSound F) (w : world) (n : N) :
  Forall (fun g => 1648 <= g <= 2448) (written (output (exec w n))).
Proof.
  destruct n as [| n] using N.peano_ind; [constructor |]. clear IHn.
  destruct (ping w MOTOR_ID) eqn:Hping.
  - rewrite (output_alive w n Hping), written_app.
    change (written setup_events) with (@nil Z). simpl app.
    exact (@written_run_events_range F w HF n).
  - rewrite (exec_silent w n Hping). constructor.
Qed.

Lemma run_goals_in_range_witness :
  Forall (fun g => 1648 <= g <= 2448)
    (written (output (exec (F := binary_ops) steady_world 40))).
Proof. exact (run_goals_in_range binary_ops binary_ops_sound steady_world 40). Defined.

(** X2: the [k]-th goal position of a run (counting from 0) is the motion
    function at the elapsed time of the [k]-th call of [loop]: the counter
    at that call minus the counter at the first call, as [unsigned long]. *)
Theorem run_goals_follow_motion (F : FloatOps) (w : world) (n k : N) :
  ping w MOTOR_ID = true ->
  (k < n)%N ->
  List.length (written (output (exec w (N.succ n)))) = N.to_nat n
  /\ nth_error (written (output (exec w (N.succ n)))) (N.to_nat k)
     = Some (goal_position
               (elapsed_seconds (ulong (clock w (N.succ k))) (ulong (clock w 0%N)))).
Proof.
  intros Hping Hk. rewrite (output_alive w n Hping), written_app. simpl app.
  split.
  - apply written_run_events_length.
  - apply (written_run_events_nth w n k Hk).
Qed.

Lemma run_goals_follow_motion_witness :
  List.length (written (output (exec (F := binary_ops) steady_world 6))) = 5%nat
  /\ nth_error (written (output (exec (F := binary_ops) steady_world 6))) 2
     = Some (goal_position (F := binary_ops)
               (elapsed_seconds (F := binary_ops)
                  (ulong (clock steady_world 3)) (ulong (clock steady_world 0)))).
Proof.
  exact (run_goals_follow_motion binary_ops steady_world 5 2 eq_refl eq_refl).
Defined.



(** X7: each call of [loop] waits once: a run with [n] calls of [loop] holds
    [n] calls of [delay], each of 20 ms, and [4 n] events after those of
    [setup]. *)
Theorem loop_cadence (F : FloatOps) (w : world) (n : N) :
  ping w MOTOR_ID = true ->
  count is_delay (output (exec w (N.succ n))) = N.to_nat n
  /\ List.length (output (exec w (N.succ n))) = (11 + 4 * N.to_nat n)%nat
  /\ Forall (fun e => is_delay e = true -> e = delay 20) (output (exec w (N.succ n))).
Proof.
  intros Hping. rewrite (output_alive w n Hping).
  assert (count is_delay (run_events w n) = N.to_nat n
          /\ List.length (run_events w n) = (4 * N.to_nat n)%nat
          /\ Forall (fun e => is_delay e = true -> e = delay 20) (run_events w n))
    as (Hc & Hl & Hf).
  { induction n as [| n IH] using N.peano_ind.
    - repeat split. constructor.
    - destruct IH as (Hc & Hl & Hf).
      rewrite run_events_succ, count_app, length_app, Hc, Hl, N2Nat.inj_succ.
      split; [| split].
      + change (count is_delay (loop_events (iteration_t w n))) with 1%nat. lia.
      + simpl. lia.
      + apply Forall_app. split; [exact Hf |].
        repeat constructor; simpl; discriminate. }
  rewrite count_app, length_app, Hc, Hl.
  split; [| split].
  - reflexivity.
  - reflexivity.
  - apply Forall_app. split; [| exact Hf].
    repeat constructor; simpl; discriminate.
Qed.

Lemma loop_cadence_witness :
  count is_delay (output (exec (F := binary_ops) steady_world 4)) = 3%nat
  /\ List.length (output (exec (F := binary_ops) steady_world 4)) = 23%nat
  /\ Forall (fun e => is_delay e = true -> e = delay 20)
       (output (exec (F := binary_ops) steady_world 4)).
Proof. exact (loop_cadence binary_ops steady_world 3 eq_refl). Defined.

(** X8: a motor that does not answer is left alone: no torque-off, no write to
    its control table and no delay is ever issued, the counter is never read
    and [startTime] is never set. *)
Theorem silent_motor_untouched (F : FloatOps) (w : world) (n : N) :
  ping w MOTOR_ID = false ->
  memory (exec w (N.succ n)) = boot_state
  /\ count is_ping (output (exec w (N.succ n))) = 1%nat
  /\ count is_torqueOff (output (exec w (N.succ n))) = 0%nat
  /\ count is_control_write (output (exec w (N.succ n))) = 0%nat
  /\ count is_delay (output (exec w (N.succ n))) = 0%nat
  /\ printed (output (exec w (N.succ n))) = [].
Proof.
  intros Hping. rewrite (exec_silent w n Hping). repeat split.
Qed.

Lemma silent_motor_untouched_witness :
  memory (exec (F := binary_ops) silent_world 9) = boot_state
  /\ count is_ping (output (exec (F := binary_ops) silent_world 9)) = 1%nat
  /\ count is_torqueOff (output (exec (F := binary_ops) silent_world 9)) = 0%nat
  /\ count is_control_write (output (exec (F := binary_ops) silent_world 9)) = 0%nat
  /\ count is_delay (output (exec (F := binary_ops) silent_world 9)) = 0%nat
  /\ printed (output (exec (F := binary_ops) silent_world 9)) = [].
Proof. exact (silent_motor_untouched binary_ops silent_world 8 eq_refl). Defined.

(** ** The position under rounding *)

(** X15: up to a second after the start, while the position is above the
    center, rounding moves the position by at most a thousandth of a unit:
    the goal position is the greatest integer below the sine expression, or
    its neighbour when the expression is within a thousandth of an integer. *)
Theorem position_rounding_error (F : FloatOps) (HA : FloatOpsAccurate F)
    (now start : Z) :
  1 <= ulong (now - start) <= 999 ->
  (Rabs (position (elapsed_seconds now start)
         - (CENTER_POS
            + AMPLITUDE * sin (2 * PI * SPEED * (IZR (ulong (now - start)) / 1000))))
   <= 1 / 1000)%R
  /\ Zfloor (CENTER_POS
             + AMPLITUDE * sin (2 * PI * SPEED * (IZR (ulong (now - start)) / 1000))
             - 1 / 1000)
     <= goal_position (elapsed_seconds now start)
     <= Zfloor (CENTER_POS
                + AMPLITUDE * sin (2 * PI * SPEED * (IZR (ulong (now - start)) / 1000))
                + 1 / 1000).
Proof.
  intros [Hlo Hhi]. apply IZR_le in Hlo, Hhi.
  unfold goal_position, elapsed_seconds, CENTER_POS, AMPLITUDE, SPEED.
  set (t0 := (IZR (ulong (now - start)) / 1000)%R) in *.
  replace (2 * PI * (1 / 2) * t0)%R with (PI * t0)%R by lra.
  assert (1 / 1000 <= t0 <= 1)%R as Ht0 by (unfold t0; lra).
  assert (29 / 10000 < sin (PI * t0))%R as Hs by (apply sin_first_half; unfold t0; lra).
  assert (1 / 1000 <= sin (PI * t0))%R as Hs' by lra.
  pose proof (position_accurate t0 Ht0 Hs') as Hp.
  split; [exact Hp |].
  apply Rabs_bound in Hp.
  rewrite int_of_float_nonneg by lra.
  split; apply Zfloor_le; lra.
Qed.

Lemma position_rounding_error_witness :
  (Rabs (position (F := binary_ops) (elapsed_seconds (F := binary_ops) 350 100)
         - (CENTER_POS
            + AMPLITUDE * sin (2 * PI * SPEED * (IZR (ulong (350 - 100)) / 1000))))
   <= 1 / 1000)%R
  /\ Zfloor (CENTER_POS
             + AMPLITUDE * sin (2 * PI * SPEED * (IZR (ulong (350 - 100)) / 1000))
             - 1 / 1000)
     <= goal_position (F := binary_ops) (elapsed_seconds (F := binary_ops) 350 100)
     <= Zfloor (CENTER_POS
                + AMPLITUDE * sin (2 * PI * SPEED * (IZR (ulong (350 - 100)) / 1000))
                + 1 / 1000).
Proof.
  apply (position_rounding_error binary_ops binary_ops_accurate 350 100).
  vm_compute. split; congruence.
Defined.

(** X13: during the first half period the goal position is above the
    center, and half a period later it is below it. *)
Theorem goal_position_sides (F : FloatOps) (HF : FloatOpsSound F)
    (HB : FloatOpsBinary F) (start now1 now2 : Z) :
  1 <= ulong (now1 - start) <= 999 ->
  ulong (now2 - start) = ulong (now1 - start) + 1000 ->
  2049 <= goal_position (elapsed_seconds now1 start)
  /\ goal_position (elapsed_seconds now2 start) <= 2046.
Proof.
  intros [Hlo Hhi] He.
  pose proof (ulong_range (now1 - start)) as R1.
  pose proof (ulong_range (now2 - start)) as R2.
  pose proof (Rabs_bound _ _ (position_error _ R1)) as P1.
  pose proof (Rabs_bound _ _ (position_error _ R2)) as P2.
  rewrite !goal_position_floor. unfold elapsed_seconds.
  set (e1 := ulong (now1 - start)) in *. set (e2 := ulong (now2 - start)) in *.
  apply IZR_le in Hlo, Hhi.
  assert (29 / 10000 < sin (PI * (IZR e1 / 1000)))%R as Hs
    by (apply sin_first_half; lra).
  unfold CENTER_POS, AMPLITUDE, SPEED in P1, P2.
  replace (2 * PI * (1 / 2) * (IZR e1 / 1000))%R with (PI * (IZR e1 / 1000))%R in P1 by lra.
  replace (2 * PI * (1 / 2) * (IZR e2 / 1000))%R
    with (PI * (IZR e1 / 1000) + PI)%R in P2
    by (rewrite He, plus_IZR; field).
  rewrite neg_sin in P2.
  pose proof (SIN_bound (PI * (IZR e1 / 1000))) as Hb.
  assert (IZR e2 = IZR e1 + 1000)%R as E2 by (rewrite He, plus_IZR; reflexivity).
  split.
  - apply Zfloor_lub. lra.
  - pose proof (Zfloor_bound
                  (position (to_float (to_double (IZR e2 / 1000))))) as [Hf _].
    assert (IZR (Zfloor (position (to_float (to_double (IZR e2 / 1000)))))
            < IZR 2047)%R as Hlt by lra.
    apply lt_IZR in Hlt. lia.
Qed.

Lemma goal_position_sides_witness :
  2049 <= goal_position (F := binary_ops) (elapsed_seconds (F := binary_ops) 250 0)
  /\ goal_position (F := binary_ops) (elapsed_seconds (F := binary_ops) 1250 0)
     <= 2046.
Proof.
  apply (goal_position_sides binary_ops binary_ops_sound binary_ops_binary 0 250 1250).
  - vm_compute. split; congruence.
  - reflexivity.
Defined.

(** ** Steps, symmetry and monotonicity of the goal position *)

(** X9: during the first 1000 s the goal position moves by less than
    [AMPLITUDE * 2 pi SPEED] per second of elapsed time, plus the unit of the
    cast and 0.202 of rounding; two readings of the counter at most 20 ms
    apart give goal positions at most 26 units apart. *)
Theorem goal_position_step (F : FloatOps) (HF : FloatOpsSound F)
    (HB : FloatOpsBinary F) (start now1 now2 : Z) :
  ulong (now1 - start) <= 1000000 ->
  ulong (now2 - start) <= 1000000 ->
  (Rabs (IZR (goal_position (elapsed_seconds now1 start)
              - goal_position (elapsed_seconds now2 start)))
   < AMPLITUDE * (2 * PI * SPEED)
     * (Rabs (IZR (ulong (now1 - start)) - IZR (ulong (now2 - start))) / 1000)
     + 1 + 202 / 1000)%R
  /\ (Z.abs (ulong (now1 - start) - ulong (now2 - start)) <= 20 ->
      Z.abs (goal_position (elapsed_seconds now1 start)
             - goal_position (elapsed_seconds now2 start)) <= 26).
Proof.
  intros H1 H2.
  pose proof (ulong_range (now1 - start)) as [L1 _].
  pose proof (ulong_range (now2 - start)) as [L2 _].
  rewrite !goal_position_floor. unfold elapsed_seconds.
  set (e1 := ulong (now1 - start)) in *. set (e2 := ulong (now2 - start)) in *.
  pose proof (Rabs_bound _ _ (position_first_1000s e1 (conj L1 H1))) as P1.
  pose proof (Rabs_bound _ _ (position_first_1000s e2 (conj L2 H2))) as P2.
  set (p1 := position (to_float (to_double (IZR e1 / 1000)))) in *.
  set (p2 := position (to_float (to_double (IZR e2 / 1000)))) in *.
  pose proof PI_RGT_0 as Hpos. pose proof PI_lt_63_20 as Hpi.
  pose proof (Rabs_pos (IZR e1 - IZR e2)) as Hd0.
  assert (Rabs (PI * (IZR e1 / 1000) - PI * (IZR e2 / 1000))
          <= PI * (Rabs (IZR e1 - IZR e2) / 1000))%R as Harg.
  { replace (PI * (IZR e1 / 1000) - PI * (IZR e2 / 1000))%R
      with (PI / 1000 * (IZR e1 - IZR e2))%R by field.
    rewrite Rabs_mult, (Rabs_right (PI / 1000)) by lra. lra. }
  pose proof (Rabs_bound _ _ (sin_near _ _ _ Harg)) as Hs.
  pose proof (Zfloor_close p1 p2) as Hf.
  assert (Rabs (p1 - p2)
          <= 400 * PI * (Rabs (IZR e1 - IZR e2) / 1000) + 202 / 1000)%R as Hp
    by (apply Rabs_le; lra).
  split.
  - unfold AMPLITUDE, SPEED. lra.
  - intros Hclose.
    assert (Rabs (IZR e1 - IZR e2) <= 20)%R as H20.
    { rewrite <- minus_IZR, <- abs_IZR. apply IZR_le in Hclose. exact Hclose. }
    assert (400 * PI * (Rabs (IZR e1 - IZR e2) / 1000) <= 252 / 10)%R as Hb by nra.
    assert (Rabs (IZR (Zfloor p1 - Zfloor p2)) < IZR 27)%R as Hlt by lra.
    rewrite <- abs_IZR in Hlt. apply lt_IZR in Hlt. lia.
Qed.

Lemma goal_position_step_witness :
  (Rabs (IZR (goal_position (F := binary_ops) (elapsed_seconds (F := binary_ops) 260 0)
              - goal_position (F := binary_ops) (elapsed_seconds (F := binary_ops) 280 0)))
   < AMPLITUDE * (2 * PI * SPEED)
     * (Rabs (IZR (ulong (260 - 0)) - IZR (ulong (280 - 0))) / 1000)
     + 1 + 202 / 1000)%R
  /\ Z.abs (goal_position (F := binary_ops) (elapsed_seconds (F := binary_ops) 260 0)
            - goal_position (F := binary_ops) (elapsed_seconds (F := binary_ops) 280 0))
     <= 26.
Proof.
  destruct (goal_position_step binary_ops binary_ops_sound binary_ops_binary 0 260 280)
    as [Hreal Hint].
  - vm_compute. congruence.
  - vm_compute. congruence.
  - split; [exact Hreal |]. apply Hint. vm_compute. congruence.
Defined.

(** X10: half a period later the goal position is the mirror image about
    the center, up to the two units that the casts discard: during the
    first 1000 s the two goal positions add up to 4094, 4095 or 4096. *)
Theorem goal_position_half_period (F : FloatOps) (HF : FloatOpsSound F)
    (HB : FloatOpsBinary F) (start now1 now2 : Z) :
  ulong (now2 - start) = ulong (now1 - start) + 1000 ->
  ulong (now2 - start) <= 1000000 ->
  4094 <= goal_position (elapsed_seconds now1 start)
          + goal_position (elapsed_seconds now2 start) <= 4096.
Proof.
  intros He H2.
  pose proof (ulong_range (now1 - start)) as [L1 _].
  rewrite !goal_position_floor. unfold elapsed_seconds.
  set (e1 := ulong (now1 - start)) in *. set (e2 := ulong (now2 - start)) in *.
  assert (0 <= e1 <= 1000000) as R1 by lia.
  assert (0 <= e2 <= 1000000) as R2 by lia.
  pose proof (Rabs_bound _ _ (position_first_1000s e1 R1)) as P1.
  pose proof (Rabs_bound _ _ (position_first_1000s e2 R2)) as P2.
  replace (PI * (IZR e2 / 1000))%R with (PI * (IZR e1 / 1000) + PI)%R in P2
    by (rewrite He, plus_IZR; field).
  rewrite neg_sin in P2.
  set (p1 := position (to_float (to_double (IZR e1 / 1000)))) in *.
  set (p2 := position (to_float (to_double (IZR e2 / 1000)))) in *.
  pose proof (Zfloor_bound p1) as B1. pose proof (Zfloor_bound p2) as B2.
  assert (IZR 4093 < IZR (Zfloor p1 + Zfloor p2) < IZR 4097)%R as [Hl Hh]
    by (rewrite plus_IZR; lra).
  apply lt_IZR in Hl, Hh. lia.
Qed.

Lemma goal_position_half_period_witness :
  4094 <= goal_position (F := binary_ops) (elapsed_seconds (F := binary_ops) 250 0)
          + goal_position (F := binary_ops) (elapsed_seconds (F := binary_ops) 1250 0)
  <= 4096.
Proof.
  apply (goal_position_half_period binary_ops binary_ops_sound binary_ops_binary 0 250 1250).
  - reflexivity.
  - vm_compute. congruence.
Defined.

(** X11: the way up and the way down are the same up to one unit: the goal
    position [e] ms before the peak of the first period and the one [e] ms
    after it differ by one at most. *)
Theorem goal_position_mirror (F : FloatOps) (HF : FloatOpsSound F)
    (HB : FloatOpsBinary F) (start now1 now2 : Z) :
  ulong (now1 - start) + ulong (now2 - start) = 1000 ->
  Z.abs (goal_position (elapsed_seconds now1 start)
         - goal_position (elapsed_seconds now2 start)) <= 1.
Proof.
  intros He.
  pose proof (ulong_range (now1 - start)) as [L1 _].
  pose proof (ulong_range (now2 - start)) as [L2 _].
  rewrite !goal_position_floor. unfold elapsed_seconds.
  set (e1 := ulong (now1 - start)) in *. set (e2 := ulong (now2 - start)) in *.
  assert (0 <= e1 <= 1500) as R1 by lia.
  assert (0 <= e2 <= 1500) as R2 by lia.
  pose proof (Rabs_bound _ _ (position_first_period e1 R1)) as P1.
  pose proof (Rabs_bound _ _ (position_first_period e2 R2)) as P2.
  assert (IZR e2 = 1000 - IZR e1)%R as E2.
  { replace e2 with (1000 - e1) by lia. rewrite minus_IZR. reflexivity. }
  replace (PI * (IZR e2 / 1000))%R with (PI - PI * (IZR e1 / 1000))%R in P2
    by (rewrite E2; field).
  rewrite sin_PI_x in P2.
  set (p1 := position (to_float (to_double (IZR e1 / 1000)))) in *.
  set (p2 := position (to_float (to_double (IZR e2 / 1000)))) in *.
  pose proof (Zfloor_close p1 p2) as Hf.
  assert (Rabs (p1 - p2) <= 1 / 1000)%R as Hd by (apply Rabs_le; lra).
  assert (Rabs (IZR (Zfloor p1 - Zfloor p2)) < IZR 2)%R as Hlt by lra.
  rewrite <- abs_IZR in Hlt. apply lt_IZR in Hlt. lia.
Qed.

Lemma goal_position_mirror_witness :
  Z.abs (goal_position (F := binary_ops) (elapsed_seconds (F := binary_ops) 300 0)
         - goal_position (F := binary_ops) (elapsed_seconds (F := binary_ops) 700 0))
  <= 1.
Proof.
  apply (goal_position_mirror binary_ops binary_ops_sound binary_ops_binary 0 300 700).
  reflexivity.
Defined.

(** X12: during the first half second the goal position never steps back
    from one millisecond reading to a later one, and from 500 ms to 1500 ms,
    on the way down, it never steps forward. *)
Theorem goal_position_monotone (F : FloatOps) (HF : FloatOpsSound F)
    (HB : FloatOpsBinary F) (start now1 now2 : Z) :
  ulong (now1 - start) <= ulong (now2 - start) ->
  (ulong (now2 - start) <= 500 ->
   goal_position (elapsed_seconds now1 start)
   <= goal_position (elapsed_seconds now2 start))
  /\ (500 <= ulong (now1 - start) -> ulong (now2 - start) <= 1500 ->
      goal_position (elapsed_seconds now2 start)
      <= goal_position (elapsed_seconds now1 start)).
Proof.
  intros H12.
  pose proof (ulong_range (now1 - start)) as [L1 _].
  rewrite !goal_position_floor. unfold elapsed_seconds.
  set (e1 := ulong (now1 - start)) in *. set (e2 := ulong (now2 - start)) in *.
  destruct (Z.eq_dec e1 e2) as [-> | Hne]; [split; intros; lia |].
  assert (IZR e1 + 1 <= IZR e2)%R as Hstep.
  { rewrite <- (plus_IZR e1 1). apply IZR_le. lia. }
  pose proof PI2_3_2 as Hpi3. pose proof PI_lt_13_4 as Hpi.
  split.
  - intros H2.
    assert (0 <= e1 <= 1500) as R1 by lia.
    assert (0 <= e2 <= 1500) as R2 by lia.
    pose proof (Rabs_bound _ _ (position_first_period e1 R1)) as P1.
    pose proof (Rabs_bound _ _ (position_first_period e2 R2)) as P2.
    apply IZR_le in L1, H2.
    assert (4 / 10 ^ 6 <= sin (PI * (IZR e2 / 1000)) - sin (PI * (IZR e1 / 1000)))%R
      as Hg by (apply sin_gap; nra).
    apply Zfloor_le. lra.
  - intros H1 H2.
    assert (0 <= e1 <= 1500) as R1 by lia.
    assert (0 <= e2 <= 1500) as R2 by lia.
    pose proof (Rabs_bound _ _ (position_first_period e1 R1)) as P1.
    pose proof (Rabs_bound _ _ (position_first_period e2 R2)) as P2.
    apply IZR_le in H1, H2.
    assert (4 / 10 ^ 6 <= sin (PI * (IZR e2 / 1000) - PI)
                          - sin (PI * (IZR e1 / 1000) - PI))%R
      as Hg by (apply sin_gap; nra).
    replace (PI * (IZR e1 / 1000))%R with (PI * (IZR e1 / 1000) - PI + PI)%R in P1 by ring.
    replace (PI * (IZR e2 / 1000))%R with (PI * (IZR e2 / 1000) - PI + PI)%R in P2 by ring.
    rewrite neg_sin in P1, P2.
    apply Zfloor_le. lra.
Qed.

Lemma goal_position_monotone_witness :
  goal_position (F := binary_ops) (elapsed_seconds (F := binary_ops) 100 0)
  <= goal_position (F := binary_ops) (elapsed_seconds (F := binary_ops) 300 0)
  /\ goal_position (F := binary_ops) (elapsed_seconds (F := binary_ops) 900 0)
     <= goal_position (F := binary_ops) (elapsed_seconds (F := binary_ops) 700 0).
Proof.
  split.
  - apply (goal_position_monotone binary_ops binary_ops_sound binary_ops_binary 0 100 300);
      vm_compute; congruence.
  - apply (goal_position_monotone binary_ops binary_ops_sound binary_ops_binary 0 700 900);
      vm_compute; congruence.
Defined.

(** X14: two calls of [loop] whose readings of the counter are a whole
    number of periods (2000 ms) apart send goal positions that differ by one
    at most, as long as the later reading is no more than 1000 s after the
    start. *)
Theorem iterations_periods_apart (F : FloatOps) (HF : FloatOpsSound F)
    (HB : FloatOpsBinary F) (w : world) (k1 k2 : N) (j : Z) :
  0 <= j ->
  0 <= clock w (N.succ k1) - clock w 0%N ->
  clock w (N.succ k2) = clock w (N.succ k1) + 2000 * j ->
  clock w (N.succ k2) - clock w 0%N <= 1000000 ->
  Z.abs (goal_position (iteration_t w k2) - goal_position (iteration_t w k1)) <= 1.
Proof.
  intros Hj H0 Hk Hlt.
  rewrite !iteration_t_before_wrap by (unfold ULONG_BITS; lia).
  apply (goals_periods_apart _ _ j); lia.
Qed.

Lemma iterations_periods_apart_witness :
  Z.abs (goal_position (F := binary_ops) (iteration_t (F := binary_ops) steady_world 207)
         - goal_position (F := binary_ops) (iteration_t (F := binary_ops) steady_world 7))
  <= 1.
Proof.
  apply (iterations_periods_apart binary_ops binary_ops_sound binary_ops_binary
           steady_world 7 207 2); vm_compute; congruence.
Defined.
